(** * feathers-hooks-common, [src/utils.js]: dot-path accessors, the hook
    context guard and the hook items accessors.

    The functions of [utils.js] work on JavaScript objects that the caller
    owns and that they mutate in place.  Objects therefore live in a heap
    indexed by locations, a JavaScript value is either a primitive or a
    reference into that heap, and every function of the module is a
    computation over the heap that returns normally, throws, or leaves the
    fragment of JavaScript modelled here.

    Modelled fragment.  Plain data objects (own, string-keyed data
    properties) and dense arrays.  Numbers are the integer-valued ones.
    Not modelled: functions as values, accessor properties, frozen objects,
    proxies, members inherited from [Object.prototype] or [Array.prototype]
    (path segments and field names are taken not to name them), the own
    properties of primitive strings, and stores into arrays (they follow the
    exotic array rules for indices and [length]); a store into an array is
    reported as [Unmodelled], never given a made-up meaning.  The module is an
    ES module, hence strict code: a store into a primitive throws. *)

From stdpp Require Import base option list strings gmap fin_maps.
From Stdlib Require Import Ascii ZArith Lia.

Set Warnings "-register-all".

Open Scope string_scope.

(** ** Values and the heap *)

Definition loc := positive.

Inductive val : Type :=
  | VUndef
  | VNull
  | VBool (b : bool)
  | VNum (n : Z)
  | VStr (s : string)
  | VRef (l : loc).

Global Instance val_eq_dec : EqDecision val.
Proof. solve_decision. Defined.

(** A heap object: a plain object with its own properties, or an array. *)
Inductive obj : Type :=
  | OPlain (props : gmap string val)
  | OArray (elems : list val).

Abbreviation heap := (gmap loc obj).

(** ** Primitive operations of the language *)

(** ToBoolean. *)
Definition truthy (v : val) : bool :=
  match v with
  | VUndef | VNull => false
  | VBool b => b
  | VNum n => negb (n =? 0)%Z
  | VStr s => negb (String.eqb s "")
  | VRef _ => true
  end.

(** [typeof v === 'object']: true of [null] as well. *)
Definition typeof_object (v : val) : bool :=
  match v with
  | VNull | VRef _ => true
  | _ => false
  end.

(** [a === b] on the modelled values. *)
Definition strict_eq (a b : val) : bool := bool_decide (a = b).

(** Exceptions.  The two [Error]s that [checkContext] throws are told apart
    by what their message is built from: the label and the hook type, or the
    label and the (serialised) array of methods. *)
Inductive exn : Type :=
  | TypeError
  | ContextMismatch (label type : val)
  | OperationMismatch (label : val) (methods : list val).

Inductive result (A : Type) : Type :=
  | Ok (a : A) (h : heap)
  | Throw (e : exn) (h : heap)
  | Unmodelled.
Arguments Ok {A} a h.
Arguments Throw {A} e h.
Arguments Unmodelled {A}.

(** Computations over the heap, with stdpp's monad notation:
    [x ← m; k] runs [m], stops at a throw, and otherwise goes on with [k]. *)
Definition M (A : Type) : Type := heap → result A.

Global Instance M_ret : MRet M := λ A a h, Ok a h.
Global Instance M_bind : MBind M := λ A B k m h,
  match m h with
  | Ok a h' => k a h'
  | Throw e h' => Throw e h'
  | Unmodelled => Unmodelled
  end.

Definition throw {A} (e : exn) : M A := λ h, Throw e h.

(** Decimal array indices: [array_index "12" = Some 12], no sign, no leading
    zero, below 2^32 - 1. *)
Definition digit_of (a : ascii) : option N :=
  let n := N_of_ascii a in
  if ((48 <=? n) && (n <=? 57))%N then Some (n - 48)%N else None.

Fixpoint digits_value (s : string) (acc : N) : option N :=
  match s with
  | EmptyString => Some acc
  | String a s' =>
      match digit_of a with
      | Some d => digits_value s' (10 * acc + d)%N
      | None => None
      end
  end.

Definition array_index (s : string) : option N :=
  match s with
  | EmptyString => None
  | String "0" EmptyString => Some 0%N
  | String "0" _ => None
  | _ =>
      if (10 <? String.length s)%nat then None
      else match digits_value s 0 with
           | Some n => if (n <? 4294967295)%N then Some n else None
           | None => None
           end
  end.

(** The own property [k] of an object, if it has one. *)
Definition own_property (o : obj) (k : string) : option val :=
  match o with
  | OPlain props => props !! k
  | OArray elems =>
      if String.eqb k "length" then Some (VNum (Z.of_nat (length elems)))
      else match array_index k with
           | Some i => elems !! N.to_nat i
           | None => None
           end
  end.

(** [v[k]]: reading a property of [null] or [undefined] throws; the other
    primitives own none of the keys read here. *)
Definition get_prop (v : val) (k : string) : M val :=
  match v with
  | VUndef | VNull => throw TypeError
  | VBool _ | VNum _ | VStr _ => mret VUndef
  | VRef l => λ h,
      match h !! l with
      | Some o => Ok (default VUndef (own_property o k)) h
      | None => Unmodelled
      end
  end.

(** [v.hasOwnProperty(k)]. *)
Definition hasOwnProperty (v : val) (k : string) : M bool :=
  match v with
  | VUndef | VNull => throw TypeError
  | VBool _ | VNum _ | VStr _ => mret false
  | VRef l => λ h,
      match h !! l with
      | Some o => Ok (bool_decide (is_Some (own_property o k))) h
      | None => Unmodelled
      end
  end.

(** [v[k] = x] in strict code. *)
Definition set_prop (v : val) (k : string) (x : val) : M unit :=
  match v with
  | VUndef | VNull | VBool _ | VNum _ | VStr _ => throw TypeError
  | VRef l => λ h,
      match h !! l with
      | Some (OPlain props) => Ok tt (<[l := OPlain (<[k := x]> props)]> h)
      | Some (OArray _) | None => Unmodelled
      end
  end.

(** [delete v[k]] in strict code. *)
Definition delete_prop (v : val) (k : string) : M unit :=
  match v with
  | VUndef | VNull => throw TypeError
  | VBool _ | VNum _ | VStr _ => mret tt
  | VRef l => λ h,
      match h !! l with
      | Some (OPlain props) => Ok tt (<[l := OPlain (delete k props)]> h)
      | Some (OArray _) | None => Unmodelled
      end
  end.

(** Allocation of a new object: [{}] and [[x]]. *)
Definition alloc (o : obj) : M val :=
  λ h, let l := fresh (dom h) in Ok (VRef l) (<[l := o]> h).

(** [Array.isArray(v)]. *)
Definition isArray (v : val) : M bool :=
  match v with
  | VRef l => λ h,
      match h !! l with
      | Some (OArray _) => Ok true h
      | Some (OPlain _) => Ok false h
      | None => Unmodelled
      end
  | _ => mret false
  end.

(** [path.split('.')]: never empty, [""] gives [[""]]. *)
Fixpoint split_from (cur : string) (s : string) : list string :=
  match s with
  | EmptyString => [cur]
  | String a s' =>
      if Ascii.eqb a "."%char then cur :: split_from "" s'
      else split_from (cur +:+ String a EmptyString) s'
  end.

Definition split_dot (path : string) : list string := split_from "" path.

(** [parts.reduce(f, init)] with the index passed to the callback. *)
Fixpoint reduce_from {A} (f : A → string → nat → M A)
    (i : nat) (parts : list string) (acc : A) : M A :=
  match parts with
  | [] => mret acc
  | part :: rest => acc' ← f acc part i; reduce_from f (S i) rest acc'
  end.

Definition reduce {A} (f : A → string → nat → M A)
    (parts : list string) (init : A) : M A :=
  reduce_from f 0 parts init.

(** ** [getByDot] *)

Definition getByDot_step (obj1 : val) (part : string) (_ : nat) : M val :=
  if typeof_object obj1 then get_prop obj1 part else mret VUndef.

Definition getByDot (obj : val) (path : string) : M val :=
  reduce getByDot_step (split_dot path) obj.

(** ** [setByDot] *)

Definition setByDot_step (value : val) (ifDelete : bool) (lastIndex : nat)
    (obj1 : val) (part : string) (i : nat) : M val :=
  if negb (i =? lastIndex)%nat then
    own ← hasOwnProperty obj1 part;
    cur ← (if own then get_prop obj1 part else mret VUndef);
    (if negb own || negb (typeof_object cur)
     then (fresh_obj ← alloc (OPlain ∅); set_prop obj1 part fresh_obj)
     else mret tt);;
    get_prop obj1 part
  else
    set_prop obj1 part value;;
    (if strict_eq value VUndef && ifDelete
     then delete_prop obj1 part else mret tt);;
    mret obj1.

Definition setByDot (obj : val) (path : string) (value : val)
    (ifDelete : bool) : M val :=
  let parts := split_dot path in
  let lastIndex := (length parts - 1)%nat in
  reduce (setByDot_step value ifDelete lastIndex) parts obj.

(** ** [checkContext] *)

(** A parameter with a default value takes it when the argument is
    [undefined]. *)
Definition default_param (arg : val) (dflt : M val) : M val :=
  match arg with
  | VUndef => dflt
  | _ => mret arg
  end.

(** The elements of an array. *)
Definition array_elems (v : val) : M (list val) :=
  match v with
  | VRef l => λ h,
      match h !! l with
      | Some (OArray elems) => Ok elems h
      | _ => Unmodelled
      end
  | _ => λ _, Unmodelled
  end.

(** [arr.indexOf(x)], comparing with [===]; [-1] when absent. *)
Fixpoint indexOf_from (i : Z) (elems : list val) (x : val) : Z :=
  match elems with
  | [] => (-1)%Z
  | e :: rest => if strict_eq e x then i else indexOf_from (i + 1)%Z rest x
  end.

Definition indexOf (elems : list val) (x : val) : Z :=
  indexOf_from 0 elems x.

(** The messages interpolate [label], [type] and [JSON.stringify(myMethods)].
    Converting a primitive to text cannot fail; converting an object runs
    its [toString] or fails on a cyclic structure, which is not modelled. *)
Definition is_primitive (v : val) : bool :=
  match v with
  | VRef _ => false
  | _ => true
  end.

Definition throw_error {A} (parts : list val) (e : exn) : M A :=
  if forallb is_primitive parts then throw e else λ _, Unmodelled.

Definition checkContext_body (hook type methods label : val) : M unit :=
  wrong_type ← (if truthy type
                then (t ← get_prop hook "type"; mret (negb (strict_eq t type)))
                else mret false);
  if (wrong_type : bool) then
    throw_error [label; type] (ContextMismatch label type)
  else if negb (truthy methods) then mret tt
  else
    is_arr ← isArray methods;
    myMethods ← (if (is_arr : bool) then mret methods
                 else alloc (OArray [methods]));
    elems ← array_elems myMethods;
    wrong_method ← (if (0 <? length elems)%nat
                    then (m ← get_prop hook "method";
                          mret (indexOf elems m =? -1)%Z)
                    else mret false);
    if (wrong_method : bool) then
      throw_error (label :: elems) (OperationMismatch label elems)
    else mret tt.

(** The parameters [type = null], [methods = []] and [label = 'anonymous']
    are bound first, then the body runs. *)
Definition checkContext (hook type methods label : val) : M unit :=
  type ← default_param type (mret VNull);
  methods ← default_param methods (alloc (OArray []));
  label ← default_param label (mret (VStr "anonymous"));
  checkContext_body hook type methods label.

(** The operations that [methods] allows, as the body normalises them: the
    elements of an array, or the single value given. *)
Definition allowed_methods (h : heap) (methods : val) : list val :=
  match methods with
  | VRef l =>
      match h !! l with
      | Some (OArray elems) => elems
      | _ => [methods]
      end
  | _ => [methods]
  end.

(** ** [getItems] and [replaceItems] *)

Definition getItems (hook : val) : M val :=
  type ← get_prop hook "type";
  items ← (if strict_eq type (VStr "before")
           then get_prop hook "data" else get_prop hook "result");
  is_find ← (if truthy items
             then (m ← get_prop hook "method"; mret (strict_eq m (VStr "find")))
             else mret false);
  if (is_find : bool) then
    data ← get_prop items "data";
    mret (if truthy data then data else items)
  else mret items.

Definition replaceItems (hook items : val) : M unit :=
  type ← get_prop hook "type";
  if strict_eq type (VStr "before") then set_prop hook "data" items
  else
    m ← get_prop hook "method";
    paginated ←
      (if strict_eq m (VStr "find") then
         res ← get_prop hook "result";
         if truthy res then
           res ← get_prop hook "result";
           data ← get_prop res "data";
           mret (truthy data)
         else mret false
       else mret false);
    if (paginated : bool) then
      is_arr ← isArray items;
      if (is_arr : bool) then
        res ← get_prop hook "result";
        set_prop res "data" items;;
        res ← get_prop hook "result";
        len ← get_prop items "length";
        set_prop res "total" len
      else
        res ← get_prop hook "result";
        arr ← alloc (OArray [items]);
        set_prop res "data" arr;;
        res ← get_prop hook "result";
        set_prop res "total" (VNum 1)
    else set_prop hook "result" items.

(** ** Observing a value together with what it refers to

    [snapshot] reads off the structure reachable from a value, the way a deep
    comparison of object literals sees it; the fuel bounds the depth. *)

Inductive tree : Type :=
  | TUndef
  | TNull
  | TBool (b : bool)
  | TNum (n : Z)
  | TStr (s : string)
  | TObj (fields : list (string * tree))
  | TArr (elems : list tree).

Fixpoint snapshot (fuel : nat) (h : heap) (v : val) : option tree :=
  match v with
  | VUndef => Some TUndef
  | VNull => Some TNull
  | VBool b => Some (TBool b)
  | VNum n => Some (TNum n)
  | VStr s => Some (TStr s)
  | VRef l =>
      match fuel with
      | O => None
      | S fuel' =>
          match h !! l with
          | Some (OPlain props) =>
              TObj <$> mapM (λ kv, pair kv.1 <$> snapshot fuel' h kv.2)
                            (map_to_list props)
          | Some (OArray elems) => TArr <$> mapM (snapshot fuel' h) elems
          | None => None
          end
      end
  end.

(** ** How a call ends *)

Definition returns {A} (r : result A) : Prop := ∃ a h, r = Ok a h.
Definition throws {A} (r : result A) (e : exn) : Prop := ∃ h, r = Throw e h.

(** A computation that, however it ends, leaves every object that was in
    the heap as it was (it may add objects). *)
Definition keeps_objects {A} (m : M A) : Prop :=
  ∀ h, match m h with
       | Ok _ h' | Throw _ h' => ∀ l, is_Some (h !! l) → h' !! l = h !! l
       | Unmodelled => True
       end.

(** The own property [k] of the object at [l]. *)
Definition field (h : heap) (l : loc) (k : string) : option val :=
  h !! l ≫= λ o, own_property o k.

(** A value that points nowhere does not occur in a running program. *)
Definition wf_value (h : heap) (v : val) : Prop :=
  match v with
  | VRef l => is_Some (h !! l)
  | _ => True
  end.

(** The two conditions under which the guard fails. *)
Definition wrong_phase (ho : obj) (type : val) : Prop :=
  truthy type = true ∧ default VUndef (own_property ho "type") ≠ type.

Definition wrong_operation (h : heap) (ho : obj) (methods : val) : Prop :=
  truthy methods = true ∧
  allowed_methods h methods ≠ [] ∧
  default VUndef (own_property ho "method") ∉ allowed_methods h methods.

(** The label as the messages show it. *)
Definition shown_label (label : val) : val :=
  match label with
  | VUndef => VStr "anonymous"
  | _ => label
  end.

Global Instance wrong_phase_dec ho type : Decision (wrong_phase ho type).
Proof. unfold wrong_phase. apply _. Defined.

Global Instance wrong_operation_dec h ho methods :
  Decision (wrong_operation h ho methods).
Proof. unfold wrong_operation. apply _. Defined.

(** ** Shapes of heaps and paths that properties are stated on *)

(** A stored value that is not [null] and, when a reference, points into the
    heap. *)
Definition stored_ok (h : heap) (v : val) : Prop := v ≠ VNull ∧ wf_value h v.

(** A property of every value stored in the heap: of every property of
    every plain object and every element of every array. *)
Definition heap_Forall (P : val → Prop) (h : heap) : Prop :=
  map_Forall (λ _ o, match o with
                     | OPlain props => map_Forall (λ _ v, P v) props
                     | OArray elems => Forall P elems
                     end) h.

(** No object of the heap holds a reference that points nowhere. *)
Definition closed (h : heap) : Prop := heap_Forall (wf_value h) h.


Global Instance wf_value_dec h v : Decision (wf_value h v).
Proof. destruct v; apply _. Defined.

Global Instance stored_ok_dec h v : Decision (stored_ok h v).
Proof. unfold stored_ok. apply _. Defined.

Global Instance heap_Forall_dec P `{∀ v, Decision (P v)} h :
  Decision (heap_Forall P h).
Proof.
  unfold heap_Forall. apply map_Forall_dec. intros l [props|elems]; apply _.
Defined.


(** Whether a path holds a dot. *)
Fixpoint has_dot (path : string) : bool :=
  match path with
  | EmptyString => false
  | String a rest => Ascii.eqb a "."%char || has_dot rest
  end.

(** ** Example states *)

(** [root = {}], [root = {a: null}], [root = {a: {b: 1}}] and
    [root = {a: 1}]. *)
Definition root : loc := 1%positive.
Definition empty_root : heap := {[ root := OPlain ∅ ]}.
Definition null_under_a : heap := {[ root := OPlain {[ "a" := VNull ]} ]}.
Definition nested_a_b : heap :=
  {[ root := OPlain {[ "a" := VRef 2%positive ]};
     2%positive := OPlain {[ "b" := VNum 1 ]} ]}.
Definition number_under_a : heap := {[ root := OPlain {[ "a" := VNum 1 ]} ]}.

(** [{type: "before", method: "find", data: {data: [1]}}] *)
Definition hook : loc := 1%positive.
Definition before_find_hook : heap :=
  {[ hook := OPlain {[ "type" := VStr "before"; "method" := VStr "find";
                       "data" := VRef 2%positive ]};
     2%positive := OPlain {[ "data" := VRef 3%positive ]};
     3%positive := OArray [VNum 1] ]}.

(** [{type: "after", method: "find", result: {data: 0, total: 0}}], and an
    array [[7]] at location 3. *)
Definition after_find_falsy_data : heap :=
  {[ hook := OPlain {[ "type" := VStr "after"; "method" := VStr "find";
                       "result" := VRef 2%positive ]};
     2%positive := OPlain {[ "data" := VNum 0; "total" := VNum 0 ]};
     3%positive := OArray [VNum 7] ]}.

(** [{type: "after", method: "find",
      result: {data: [1, 2], total: 2, limit: 10}}], and an array [[7, 8, 9]]
    at location 4. *)
Definition after_find_paginated : heap :=
  {[ hook := OPlain {[ "type" := VStr "after"; "method" := VStr "find";
                       "result" := VRef 2%positive ]};
     2%positive := OPlain {[ "data" := VRef 3%positive; "total" := VNum 2;
                             "limit" := VNum 10 ]};
     3%positive := OArray [VNum 1; VNum 2];
     4%positive := OArray [VNum 7; VNum 8; VNum 9] ]}.

(** [{type: "after", method: "find", result: [1, 2]}] *)
Definition after_find_array : heap :=
  {[ hook := OPlain {[ "type" := VStr "after"; "method" := VStr "find";
                       "result" := VRef 2%positive ]};
     2%positive := OArray [VNum 1; VNum 2] ]}.

(** [{type: "after", method: "get", result: {data: 5}}], and an array [[7]]
    at location 3. *)
Definition after_get_hook : heap :=
  {[ hook := OPlain {[ "type" := VStr "after"; "method" := VStr "get";
                       "result" := VRef 2%positive ]};
     2%positive := OPlain {[ "data" := VNum 5 ]};
     3%positive := OArray [VNum 7] ]}.

(** [{type: "before", method: "patch"}], with the arrays
    [["update", "patch"]] at location 2 and [["remove"]] at location 3. *)
Definition before_patch_hook : heap :=
  {[ hook := OPlain {[ "type" := VStr "before"; "method" := VStr "patch" ]};
     2%positive := OArray [VStr "update"; VStr "patch"];
     3%positive := OArray [VStr "remove"] ]}.

(** * Properties *)

Lemma snapshot_plain fuel (h : heap) l props :
  h !! l = Some (OPlain props) →
  snapshot (S fuel) h (VRef l) =
    TObj <$> mapM (λ kv, pair kv.1 <$> snapshot fuel h kv.2) (map_to_list props).
Proof. intros Hl. simpl. by rewrite Hl. Qed.

Global Arguments snapshot : simpl never.

(** ** Basic facts about the heap operations *)

Section heap_facts.
Implicit Types (h : heap) (l : loc) (k : string) (v x : val).

Lemma fresh_unused h : h !! fresh (dom h) = None.
Proof. apply not_elem_of_dom, is_fresh. Qed.

Lemma fresh_ne h l o : h !! l = Some o → fresh (dom h) ≠ l.
Proof. intros Hl Heq. by rewrite <-Heq, fresh_unused in Hl. Qed.

Lemma bind_ok {A B} (m : M A) (f : A → M B) h a h' :
  m h = Ok a h' → (m ≫= f) h = f a h'.
Proof. unfold mbind, M_bind. by intros ->. Qed.

Lemma bind_throw {A B} (m : M A) (f : A → M B) h e h' :
  m h = Throw e h' → (m ≫= f) h = Throw e h'.
Proof. unfold mbind, M_bind. by intros ->. Qed.

Lemma get_prop_plain h l props k :
  h !! l = Some (OPlain props) →
  get_prop (VRef l) k h = Ok (default VUndef (props !! k)) h.
Proof. unfold get_prop. by intros ->. Qed.

Lemma hasOwnProperty_plain h l props k :
  h !! l = Some (OPlain props) →
  hasOwnProperty (VRef l) k h = Ok (bool_decide (is_Some (props !! k))) h.
Proof. unfold hasOwnProperty. by intros ->. Qed.

Lemma set_prop_plain h l props k x :
  h !! l = Some (OPlain props) →
  set_prop (VRef l) k x h = Ok tt (<[l := OPlain (<[k := x]> props)]> h).
Proof. unfold set_prop. by intros ->. Qed.

Lemma delete_prop_plain h l props k :
  h !! l = Some (OPlain props) →
  delete_prop (VRef l) k h = Ok tt (<[l := OPlain (delete k props)]> h).
Proof. unfold delete_prop. by intros ->. Qed.

Lemma bind_assoc {A B C} (m : M A) (f : A → M B) (g : B → M C) h :
  ((m ≫= f) ≫= g) h = (m ≫= λ a, f a ≫= g) h.
Proof. unfold mbind, M_bind. by destruct (m h). Qed.

Lemma get_prop_obj h l o k :
  h !! l = Some o →
  get_prop (VRef l) k h = Ok (default VUndef (own_property o k)) h.
Proof. unfold get_prop. by intros ->. Qed.

Lemma isArray_array h l elems :
  h !! l = Some (OArray elems) → isArray (VRef l) h = Ok true h.
Proof. unfold isArray. by intros ->. Qed.

Lemma isArray_plain h l props :
  h !! l = Some (OPlain props) → isArray (VRef l) h = Ok false h.
Proof. unfold isArray. by intros ->. Qed.

Lemma isArray_primitive h v :
  is_primitive v = true → isArray v h = Ok false h.
Proof. by destruct v. Qed.

Lemma array_elems_array h l elems :
  h !! l = Some (OArray elems) → array_elems (VRef l) h = Ok elems h.
Proof. unfold array_elems. by intros ->. Qed.

Lemma strict_eq_refl v : strict_eq v v = true.
Proof. by apply bool_decide_eq_true_2. Qed.

Lemma strict_eq_ne v x : v ≠ x → strict_eq v x = false.
Proof. apply bool_decide_eq_false_2. Qed.

Lemma alloc_eq h o :
  alloc o h = Ok (VRef (fresh (dom h))) (<[fresh (dom h) := o]> h).
Proof. reflexivity. Qed.
End heap_facts.

Global Arguments get_prop : simpl never.
Global Arguments hasOwnProperty : simpl never.
Global Arguments set_prop : simpl never.
Global Arguments delete_prop : simpl never.
Global Arguments alloc : simpl never.
Global Arguments isArray : simpl never.
Global Arguments array_elems : simpl never.

(** Symbolic execution of one operation on a plain object whose heap cell
    is known. *)
Ltac heap_lookup :=
  repeat first
    [ rewrite lookup_insert_eq
    | rewrite lookup_insert_ne by loc_ne ];
  first [ eassumption | reflexivity ]
with loc_ne :=
  first
    [ done
    | eapply fresh_ne; heap_lookup
    | eapply not_eq_sym, fresh_ne; heap_lookup ].

Ltac js_step :=
  first
    [ rewrite bind_assoc
    | erewrite (bind_ok (get_prop _ _)) by (apply get_prop_plain; heap_lookup)
    | erewrite (bind_ok (hasOwnProperty _ _)) by (apply hasOwnProperty_plain; heap_lookup)
    | erewrite (bind_ok (set_prop _ _ _)) by (apply set_prop_plain; heap_lookup)
    | erewrite (bind_ok (delete_prop _ _)) by (apply delete_prop_plain; heap_lookup)
    | erewrite (bind_ok (alloc _)) by apply alloc_eq
    | erewrite (bind_ok (mret _)) by reflexivity
    | erewrite (bind_ok (get_prop _ _)) by (apply get_prop_obj; heap_lookup)
    | erewrite get_prop_plain by heap_lookup
    | erewrite set_prop_plain by heap_lookup
    | erewrite delete_prop_plain by heap_lookup ].

Ltac js_run :=
  repeat first
    [ js_step
    | rewrite strict_eq_refl
    | rewrite strict_eq_ne by done
    | match goal with
      | H : ?m !! ?k = _ |- context [?m !! ?k] => rewrite H
      end
    | progress cbn ].

(** ** The dot-path accessors *)

Section setByDot_steps.
Variables (value : val) (ifDelete : bool) (lastIndex : nat).
Implicit Types (h : heap) (l : loc) (part : string) (i : nat).

(** A non-final segment whose key the current object does not own. *)
Lemma setByDot_step_absent h l props part i :
  i ≠ lastIndex →
  h !! l = Some (OPlain props) →
  props !! part = None →
  setByDot_step value ifDelete lastIndex (VRef l) part i h =
    Ok (VRef (fresh (dom h)))
       (<[l := OPlain (<[part := VRef (fresh (dom h))]> props)]>
          (<[fresh (dom h) := OPlain ∅]> h)).
Proof.
  intros Hi Hl Hpart. unfold setByDot_step.
  apply Nat.eqb_neq in Hi as ->. cbn [negb].
  js_step. rewrite Hpart. cbn. repeat js_step.
  by rewrite lookup_insert_eq.
Qed.



(** A non-final segment whose key holds [null]: [typeof null] is
    ['object'], so nothing is written either and [null] is handed on. *)
Lemma setByDot_step_null h l props part i :
  i ≠ lastIndex →
  h !! l = Some (OPlain props) →
  props !! part = Some VNull →
  setByDot_step value ifDelete lastIndex (VRef l) part i h = Ok VNull h.
Proof.
  intros Hi Hl Hpart. unfold setByDot_step.
  apply Nat.eqb_neq in Hi as ->. cbn [negb].
  js_step. rewrite Hpart. cbn. js_step. rewrite Hpart. cbn.
  repeat js_step. by rewrite Hpart.
Qed.

(** Whatever the segment, nothing can be done on [null]. *)
Lemma setByDot_step_on_null h part i :
  setByDot_step value ifDelete lastIndex VNull part i h = Throw TypeError h.
Proof. unfold setByDot_step. by destruct (negb _). Qed.

(** The final segment: the value is stored, or the key removed when the
    value is [undefined] and deletion was asked for; the callback returns
    the object it worked on. *)
Lemma setByDot_step_last h l props part :
  h !! l = Some (OPlain props) →
  setByDot_step value ifDelete lastIndex (VRef l) part lastIndex h =
    Ok (VRef l)
       (<[l := OPlain (if strict_eq value VUndef && ifDelete
                       then delete part props
                       else <[part := value]> props)]> h).
Proof.
  intros Hl. unfold setByDot_step. rewrite Nat.eqb_refl. cbn [negb].
  js_step. destruct (strict_eq value VUndef && ifDelete); repeat js_step.
  - unfold mret, M_ret. by rewrite insert_insert_eq, delete_insert_eq.
  - reflexivity.
Qed.
End setByDot_steps.

(** A path of a single segment: the value is stored in the root and the root
    itself is returned. *)
Lemma setByDot_single_segment (h : heap) l props path part value :
  split_dot path = [part] →
  h !! l = Some (OPlain props) →
  setByDot (VRef l) path value false h =
    Ok (VRef l) (<[l := OPlain (<[part := value]> props)]> h).
Proof.
  intros Hpath Hl. unfold setByDot. rewrite Hpath.
  cbn [length Nat.sub reduce reduce_from].
  erewrite bind_ok; [|by eapply setByDot_step_last].
  by rewrite andb_false_r.
Qed.

Lemma split_from_nonempty cur s : split_from cur s ≠ [].
Proof.
  revert cur. induction s as [|a s IH]; intros cur; cbn; [done|].
  destruct (Ascii.eqb a "."); [done|apply IH].
Qed.

Lemma split_dot_nonempty path : split_dot path ≠ [].
Proof. apply split_from_nonempty. Qed.

(** Reading below a value that [typeof] does not call an object gives
    [undefined], however long the rest of the path. *)
Lemma getByDot_reduce_not_object (h : heap) parts i v :
  typeof_object v = false →
  parts ≠ [] →
  reduce_from getByDot_step i parts v h = Ok VUndef h.
Proof.
  revert i v. induction parts as [|part parts IH]; intros i v Hv Hne; [done|].
  cbn [reduce_from]. erewrite bind_ok; last first.
  { unfold getByDot_step. by rewrite Hv. }
  destruct parts as [|part' parts]; [done|]. by apply IH.
Qed.

Lemma getByDot_not_object (h : heap) v path :
  typeof_object v = false → getByDot v path h = Ok VUndef h.
Proof.
  intros Hv. apply getByDot_reduce_not_object; [done|apply split_dot_nonempty].
Qed.

(** [getByDot] only reads: when it returns or throws, the heap is the one it
    started from. *)
Lemma getByDot_reduce_heap (h : heap) parts i v :
  match reduce_from getByDot_step i parts v h with
  | Ok _ h' | Throw _ h' => h' = h
  | Unmodelled => True
  end.
Proof.
  revert i v. induction parts as [|part parts IH]; intros i v; [done|].
  cbn [reduce_from]. unfold mbind, M_bind.
  assert (getByDot_step v part i h = Unmodelled ∨
          (∃ x, getByDot_step v part i h = Ok x h) ∨
          getByDot_step v part i h = Throw TypeError h) as [->|[[x ->]| ->]];
    [|done|apply IH|done].
  unfold getByDot_step, get_prop.
  destruct v as [| | | | |l]; cbn; eauto.
  destruct (h !! l); eauto.
Qed.

(** On a root that starts empty, whatever the path: the value is stored
    where [getByDot] finds it from the root, nothing that was in the heap
    besides the root is touched, and the object returned is the root for a
    single segment and an object created by the call otherwise. *)
Lemma setByDot_reduce_empty_root (value : val) (lastIndex : nat) parts :
  ∀ i j (h : heap) l,
    parts ≠ [] →
    i + length parts = S lastIndex →
    h !! l = Some (OPlain ∅) →
    ∃ ret h',
      reduce_from (setByDot_step value false lastIndex) i parts (VRef l) h
        = Ok (VRef ret) h' ∧
      reduce_from getByDot_step j parts (VRef l) h' = Ok value h' ∧
      (∀ l', is_Some (h !! l') → l' ≠ l → h' !! l' = h !! l') ∧
      (if decide (length parts = 1) then ret = l else h !! ret = None).
Proof.
  induction parts as [|part parts IH]; intros i j h l Hne Hlen Hl; [done|].
  destruct parts as [|part' parts].
  - cbn in Hlen. assert (i = lastIndex) as -> by lia.
    cbn [reduce_from]. erewrite bind_ok by (by eapply setByDot_step_last).
    rewrite andb_false_r. eexists _, _. split; [done|]. split_and!; [| |done].
    + erewrite bind_ok; [done|]. unfold getByDot_step. cbn.
      erewrite get_prop_plain by heap_lookup. by rewrite lookup_insert_eq.
    + intros l' _ Hl'. by rewrite lookup_insert_ne.
  - cbn [length] in Hlen. cbn [reduce_from].
    erewrite bind_ok by (eapply setByDot_step_absent; [lia|done..]).
    set (l1 := fresh (dom h)).
    set (h1 := <[l := _]> (<[l1 := OPlain ∅]> h)).
    assert (l1 ≠ l) as Hl1 by by eapply fresh_ne.
    destruct (IH (S i) (S j) h1 l1) as (ret & h' & Hrun & Hget & Hframe & Hret);
      [done|cbn [length]; lia|subst h1; heap_lookup|].
    cbn [reduce_from] in Hrun. rewrite Hrun.
    eexists _, _. split; [done|].
    assert (h' !! l = Some (OPlain (<[part := VRef l1]> ∅))) as Hl'.
    { rewrite Hframe; [subst h1; heap_lookup| |done].
      subst h1. rewrite lookup_insert_eq. eauto. }
    split_and!.
    + erewrite bind_ok; [exact Hget|]. unfold getByDot_step. cbn.
      erewrite get_prop_plain by done. by rewrite lookup_insert_eq.
    + intros l' [o Ho] Hne'.
      assert (l' ≠ l1) by (intros ->; subst l1; by rewrite fresh_unused in Ho).
      rewrite Hframe; [|subst h1|done].
      * subst h1. by rewrite !lookup_insert_ne.
      * rewrite !lookup_insert_ne by done. eauto.
    + rewrite decide_False by (cbn [length]; lia).
      case_decide as Hone.
      * subst ret. apply fresh_unused.
      * subst h1. destruct (decide (ret = l)) as [->|?];
          [by rewrite lookup_insert_eq in Hret|].
        rewrite lookup_insert_ne in Hret by done.
        destruct (decide (ret = l1)) as [->|?]; [apply fresh_unused|].
        by rewrite lookup_insert_ne in Hret.
Qed.

(** Read from the root, the path gives the value back. *)
Lemma getByDot_root_after_setByDot (h : heap) l path value :
  h !! l = Some (OPlain ∅) →
  ∃ ret h',
    setByDot (VRef l) path value false h = Ok ret h' ∧
    getByDot (VRef l) path h' = Ok value h'.
Proof.
  intros Hl. unfold setByDot, getByDot, reduce.
  pose proof (split_dot_nonempty path) as Hne.
  destruct (setByDot_reduce_empty_root value (length (split_dot path) - 1)
              (split_dot path) 0 0 h l) as (ret & h' & Hrun & Hget & _);
    [done| |done|by eauto].
  destruct (split_dot path); [done|cbn; lia].
Qed.

(** A path of two segments or more: the object returned did not exist
    before the call, so it is not the root. *)
Lemma setByDot_dotted_path_returns_new_object (h : heap) l path value :
  h !! l = Some (OPlain ∅) →
  1 < length (split_dot path) →
  ∃ ret h',
    setByDot (VRef l) path value false h = Ok (VRef ret) h' ∧
    h !! ret = None ∧ ret ≠ l.
Proof.
  intros Hl Hlen. unfold setByDot, reduce.
  destruct (setByDot_reduce_empty_root value (length (split_dot path) - 1)
              (split_dot path) 0 0 h l) as (ret & h' & Hrun & _ & _ & Hret);
    [apply split_dot_nonempty|lia|done|].
  rewrite decide_False in Hret by lia.
  exists ret, h'. split_and!; [done..|]. congruence.
Qed.

Example getByDot_nested :
  getByDot (VRef root) "a.b" nested_a_b = Ok (VNum 1) nested_a_b.
Proof. vm_compute. done. Qed.

Example getByDot_below_number :
  getByDot (VRef root) "a.b" number_under_a = Ok VUndef number_under_a.
Proof. vm_compute. done. Qed.

(** C6: [setByDot({}, "a.b.c", undefined, true)] leaves the root equal to
    [{a: {b: {}}}]: the two inner objects created on the way stay, only the
    key [c] is gone. *)
Theorem setByDot_abc_deletes_leaf_only (h : heap) (l : loc) :
  h !! l = Some (OPlain ∅) →
  ∃ ret h',
    setByDot (VRef l) "a.b.c" VUndef true h = Ok ret h' ∧
    snapshot 3 h' (VRef l) = Some (TObj [("a", TObj [("b", TObj [])])]).
Proof.
  intros Hroot.
  unfold setByDot.
  change (split_dot "a.b.c") with ["a"; "b"; "c"].
  cbn [length Nat.sub reduce reduce_from].
  erewrite bind_ok; [|by eapply setByDot_step_absent].
  erewrite bind_ok; [|eapply setByDot_step_absent; [done|heap_lookup|done]].
  erewrite bind_ok; [|eapply setByDot_step_last; heap_lookup].
  eexists _, _. split; [reflexivity|].
  set (l1 := fresh (dom h)).
  set (h1 := <[l := _]> (<[l1 := _]> h)).
  set (l2 := fresh (dom h1)).
  assert (l1 ≠ l) by by eapply fresh_ne.
  assert (l2 ≠ l) by (eapply fresh_ne; subst h1; heap_lookup).
  assert (l2 ≠ l1) by (eapply fresh_ne; subst h1; heap_lookup).
  subst h1. change (strict_eq VUndef VUndef && true) with true. cbn match.
  rewrite delete_empty, !insert_empty.
  erewrite snapshot_plain by heap_lookup.
  rewrite map_to_list_singleton. cbn.
  erewrite snapshot_plain by heap_lookup.
  rewrite map_to_list_singleton. cbn.
  erewrite snapshot_plain by heap_lookup.
  by rewrite map_to_list_empty.
Qed.

Lemma setByDot_abc_deletes_leaf_only_witness :
  ∃ ret h',
    setByDot (VRef root) "a.b.c" VUndef true empty_root = Ok ret h' ∧
    snapshot 3 h' (VRef root) = Some (TObj [("a", TObj [("b", TObj [])])]).
Proof. apply (setByDot_abc_deletes_leaf_only empty_root root). reflexivity. Defined.

(** C1: [setByDot] is documented to return the object it was given.  On
    [setByDot({}, "a.b", 1, false)] the root is changed in place, to
    [{a: {b: 1}}], but the value returned is the inner object [{b: 1}], the
    parent of the last segment, and not the root. *)
Theorem setByDot_nested_returns_inner_object :
  ∃ inner h',
    setByDot (VRef root) "a.b" (VNum 1) false empty_root = Ok (VRef inner) h' ∧
    inner ≠ root ∧
    snapshot 3 h' (VRef root) = Some (TObj [("a", TObj [("b", TNum 1)])]) ∧
    snapshot 3 h' (VRef inner) = Some (TObj [("b", TNum 1)]).
Proof. exists 2%positive. eexists. vm_compute. done. Qed.

(** C2: reading back through the value that [setByDot] returns.  On
    [getByDot(setByDot({}, "a.b", 1, false), "a.b")] the result is
    [undefined], not [1]: the path is looked up in the inner object that was
    returned.  Read from the root, the same path does give [1]. *)
Theorem getByDot_of_setByDot_nested_undefined :
  ∃ h',
    (ret ← setByDot (VRef root) "a.b" (VNum 1) false; getByDot ret "a.b")
      empty_root = Ok VUndef h' ∧
    getByDot (VRef root) "a.b" h' = Ok (VNum 1) h'.
Proof. eexists. vm_compute. done. Qed.

(** C7: [getByDot({a: null}, "a.b")] throws.  [typeof null] is ['object'],
    so the guard lets [null] through and the property read fails. *)
Theorem getByDot_null_intermediate_throws :
  getByDot (VRef root) "a.b" null_under_a = Throw TypeError null_under_a.
Proof. vm_compute. done. Qed.

(** C8: [setByDot({a: null}, "a.b", 1, false)].  The [null] under the
    non-final key [a] is not replaced with an empty object: it is descended
    into, the call throws at the next segment, and the root still holds
    [{a: null}]. *)
Theorem setByDot_null_intermediate_not_replaced :
  setByDot (VRef root) "a.b" (VNum 1) false null_under_a =
    Throw TypeError null_under_a ∧
  snapshot 3 null_under_a (VRef root) = Some (TObj [("a", TNull)]).
Proof. vm_compute. done. Qed.

(** ** The hook items accessors *)

Section items.
Variables (h : heap) (hk : loc) (hm : gmap string val).
Hypothesis Hhook : h !! hk = Some (OPlain hm).

(** Before hooks of any method but [find]: the data itself. *)
Lemma getItems_before_other_method :
  hm !! "type" = Some (VStr "before") →
  default VUndef (hm !! "method") ≠ VStr "find" →
  getItems (VRef hk) h = Ok (default VUndef (hm !! "data")) h.
Proof.
  intros Htype Hmethod. unfold getItems. js_run.
  destruct (truthy _); js_run; reflexivity.
Qed.

(** Before hooks of [find] whose data is an object with a truthy [data]
    field of its own: that inner field. *)
Lemma getItems_before_find_inner dl dm d :
  hm !! "type" = Some (VStr "before") →
  hm !! "method" = Some (VStr "find") →
  hm !! "data" = Some (VRef dl) →
  h !! dl = Some (OPlain dm) →
  dm !! "data" = Some d →
  truthy d = true →
  getItems (VRef hk) h = Ok d h.
Proof.
  intros Htype Hmethod Hdata Hdl Hd Ht. unfold getItems. js_run.
  by rewrite Ht.
Qed.

Section after_find.
Variables (e : loc) (em : gmap string val).
Hypothesis Htype : hm !! "type" = Some (VStr "after").
Hypothesis Hmethod : hm !! "method" = Some (VStr "find").
Hypothesis Hresult : hm !! "result" = Some (VRef e).
Hypothesis Henv : h !! e = Some (OPlain em).

Lemma getItems_after_find :
  getItems (VRef hk) h =
    Ok (if truthy (default VUndef (em !! "data"))
        then default VUndef (em !! "data") else VRef e) h.
Proof. unfold getItems. js_run. reflexivity. Qed.

(** Reading [hook.result] again after a store into a field of the
    envelope other than [result], also when the envelope is the hook
    object itself. *)
Lemma hook_result_stable (h0 : heap) k x :
  h0 !! hk = Some (OPlain hm) →
  k ≠ "result" →
  get_prop (VRef hk) "result" (<[e := OPlain (<[k := x]> em)]> h0) =
    Ok (VRef e) (<[e := OPlain (<[k := x]> em)]> h0).
Proof.
  intros Hhk Hk. destruct (decide (hk = e)) as [->|Hne].
  - assert (em = hm) as -> by congruence.
    erewrite get_prop_plain by heap_lookup.
    by rewrite lookup_insert_ne, Hresult.
  - erewrite get_prop_plain by heap_lookup. by rewrite Hresult.
Qed.

Variable d : val.
Hypothesis Hdata : em !! "data" = Some d.

(** The envelope branch, given an array. *)
Lemma replaceItems_envelope_array a es :
  truthy d = true →
  h !! a = Some (OArray es) →
  replaceItems (VRef hk) (VRef a) h =
    Ok tt (<[e := OPlain (<["total" := VNum (Z.of_nat (length es))]>
                            (<["data" := VRef a]> em))]> h).
Proof.
  intros Hd Ha. unfold replaceItems. js_run. rewrite Hd.
  assert (e ≠ a) by congruence.
  erewrite bind_ok by (by eapply isArray_array). js_run.
  erewrite bind_ok by (by apply hook_result_stable).
  erewrite (bind_ok (get_prop _ _)) by (apply get_prop_obj; heap_lookup).
  js_run. by rewrite insert_insert_eq.
Qed.

(** The envelope branch, given anything else. *)
Lemma replaceItems_envelope_single items :
  truthy d = true →
  isArray items h = Ok false h →
  replaceItems (VRef hk) items h =
    Ok tt (<[e := OPlain (<["total" := VNum 1]>
                            (<["data" := VRef (fresh (dom h))]> em))]>
             (<[fresh (dom h) := OArray [items]]> h)).
Proof.
  intros Hd Hitems. unfold replaceItems. js_run. rewrite Hd.
  erewrite bind_ok by done. js_run.
  erewrite bind_ok by (apply hook_result_stable; [heap_lookup|done]).
  js_run. by rewrite insert_insert_eq.
Qed.

(** No envelope is seen when its [data] is falsy. *)
Lemma replaceItems_falsy_data items :
  truthy d = false →
  replaceItems (VRef hk) items h =
    Ok tt (<[hk := OPlain (<["result" := items]> hm)]> h).
Proof.
  intros Hd. unfold replaceItems. js_run. rewrite Hd. by js_run.
Qed.
End after_find.
End items.

Lemma field_insert_plain (h : heap) l props l' k :
  field (<[l := OPlain props]> h) l' k =
    if decide (l = l') then props !! k else field h l' k.
Proof.
  unfold field. case_decide as Hl.
  - subst. by rewrite lookup_insert_eq.
  - by rewrite lookup_insert_ne.
Qed.

Lemma field_alloc (h : heap) o l k :
  is_Some (h !! l) → field (<[fresh (dom h) := o]> h) l k = field h l k.
Proof.
  intros [o' Hl]. unfold field.
  rewrite lookup_insert_ne; [done|]. by eapply fresh_ne.
Qed.

Lemma field_plain (h : heap) l props k :
  h !! l = Some (OPlain props) → field h l k = props !! k.
Proof. unfold field. by intros ->. Qed.

(** What [Array.isArray] answers on a value of a running program. *)
Lemma isArray_cases (h : heap) v :
  wf_value h v →
  (∃ a es, v = VRef a ∧ h !! a = Some (OArray es)) ∨ isArray v h = Ok false h.
Proof.
  destruct v as [| | | | |a]; try by right.
  intros [[props|es] Ha]; [right|left].
  - by eapply isArray_plain.
  - eauto.
Qed.

Section envelope.
Variables (h : heap) (hk e : loc) (hm em : gmap string val) (d items : val).
Hypothesis Hhook : h !! hk = Some (OPlain hm).
Hypothesis Htype : hm !! "type" = Some (VStr "after").
Hypothesis Hmethod : hm !! "method" = Some (VStr "find").
Hypothesis Hresult : hm !! "result" = Some (VRef e).
Hypothesis Henv : h !! e = Some (OPlain em).
Hypothesis Hdata : em !! "data" = Some d.

(** The final heap of the envelope branch: the envelope with [data] and
    [total] stored, in the heap [h] or in [h] with one more array. *)
Lemma replaceItems_envelope_heap :
  truthy d = true →
  wf_value h items →
  ∃ x n h0,
    replaceItems (VRef hk) items h =
      Ok tt (<[e := OPlain (<["total" := VNum n]> (<["data" := x]> em))]> h0) ∧
    (∀ l k, is_Some (h !! l) → field h0 l k = field h l k) ∧
    ((∃ a es, items = VRef a ∧ h !! a = Some (OArray es) ∧
              x = items ∧ n = Z.of_nat (length es) ∧ h0 = h) ∨
     (isArray items h = Ok false h ∧
      ∃ a, x = VRef a ∧ n = 1%Z ∧ h !! a = None ∧
           h0 = <[a := OArray [items]]> h)).
Proof.
  intros Hd Hwf. destruct (isArray_cases h items Hwf) as [(a & es & -> & Ha)|Hno].
  - eexists _, _, h. split; [by eapply replaceItems_envelope_array|].
    split; [done|]. left. eauto 10.
  - eexists _, _, _. split; [by eapply replaceItems_envelope_single|].
    split; [intros; by apply field_alloc|]. right. split; [done|].
    eexists. split_and!; [done..|apply fresh_unused|done].
Qed.
End envelope.

(** C5, as amended: on an after-hook of [find] whose result is an object
    with a truthy [data] field, [replaceItems] stores into that same object:
    given an array, [data] becomes that array and [total] its length; given
    anything else, [data] becomes a new one-element array holding it and
    [total] becomes 1.  [hook.result] still refers to the same envelope. *)
Theorem replaceItems_paginated_envelope
    (h : heap) (hk e : loc) (hm em : gmap string val) (d items : val) :
  h !! hk = Some (OPlain hm) →
  hm !! "type" = Some (VStr "after") →
  hm !! "method" = Some (VStr "find") →
  hm !! "result" = Some (VRef e) →
  h !! e = Some (OPlain em) →
  em !! "data" = Some d →
  truthy d = true →
  wf_value h items →
  ∃ h',
    replaceItems (VRef hk) items h = Ok tt h' ∧
    field h' hk "result" = Some (VRef e) ∧
    (∀ a es, items = VRef a → h !! a = Some (OArray es) →
       field h' e "data" = Some items ∧
       field h' e "total" = Some (VNum (Z.of_nat (length es))) ∧
       h' !! a = Some (OArray es)) ∧
    (isArray items h = Ok false h →
       ∃ a, h !! a = None ∧ h' !! a = Some (OArray [items]) ∧
            field h' e "data" = Some (VRef a) ∧
            field h' e "total" = Some (VNum 1)).
Proof.
  intros Hhook Htype Hmethod Hresult Henv Hdata Hd Hwf.
  destruct (replaceItems_envelope_heap h hk e hm em d items)
    as (x & n & h0 & Hrun & Hframe & Hcases); [done..|].
  eexists. split; [exact Hrun|].
  assert (∀ k, field (<[e:=OPlain (<["total":=VNum n]> (<["data":=x]> em))]> h0)
                 e k = <["total":=VNum n]> (<["data":=x]> em) !! k) as Henv'.
  { intros k. by rewrite field_insert_plain, decide_True. }
  rewrite !Henv', lookup_insert_eq, lookup_insert_ne, lookup_insert_eq by done.
  split.
  { rewrite field_insert_plain. case_decide as Heq.
    - subst hk. assert (em = hm) as -> by congruence.
      by rewrite !lookup_insert_ne.
    - rewrite Hframe by done. by erewrite field_plain. }
  destruct Hcases as [(a & es & -> & Ha & -> & -> & ->)|(Hno & a & -> & -> & Ha & ->)].
  - split.
    + intros a' es' [= <-] Ha'. assert (es' = es) as -> by congruence.
      split_and!; [done..|]. rewrite lookup_insert_ne; [done|congruence].
    + intros Hno. erewrite isArray_array in Hno by done. discriminate.
  - split.
    + intros a' es' -> Ha'. erewrite isArray_array in Hno by done. discriminate.
    + intros _. exists a. split_and!; [done| |done..].
      rewrite lookup_insert_ne, lookup_insert_eq; [done|congruence].
Qed.

Lemma replaceItems_paginated_envelope_witness :
  ∃ h',
    replaceItems (VRef hook) (VNum 5) after_find_paginated = Ok tt h' ∧
    field h' hook "result" = Some (VRef 2%positive) ∧
    (∀ a es, VNum 5 = VRef a → after_find_paginated !! a = Some (OArray es) →
       field h' 2%positive "data" = Some (VNum 5) ∧
       field h' 2%positive "total" = Some (VNum (Z.of_nat (length es))) ∧
       h' !! a = Some (OArray es)) ∧
    (isArray (VNum 5) after_find_paginated = Ok false after_find_paginated →
       ∃ a, after_find_paginated !! a = None ∧
            h' !! a = Some (OArray [VNum 5]) ∧
            field h' 2%positive "data" = Some (VRef a) ∧
            field h' 2%positive "total" = Some (VNum 1)).
Proof.
  eapply (replaceItems_paginated_envelope after_find_paginated hook 2%positive
            _ _ (VRef 3%positive) (VNum 5));
    try reflexivity; exact I.
Defined.

(** C5, as stated, fails where the [data] field is there but falsy: on
    [{type: "after", method: "find", result: {data: 0, total: 0}}] and the
    array [[7]], the envelope keeps [data: 0] and [total: 0], and
    [hook.result] is replaced with the array. *)
Lemma replaceItems_falsy_data_replaces_result :
  field after_find_falsy_data 2%positive "data" = Some (VNum 0) ∧
  ∃ h',
    replaceItems (VRef hook) (VRef 3%positive) after_find_falsy_data = Ok tt h' ∧
    field h' 2%positive "data" = Some (VNum 0) ∧
    field h' 2%positive "total" = Some (VNum 0) ∧
    field h' hook "result" = Some (VRef 3%positive).
Proof. split; [reflexivity|]. eexists. vm_compute. done. Qed.

(** C9: in the envelope branch, [replaceItems] changes no property of any
    object that was there, other than [data] and [total] of the envelope.
    In particular the hook keeps its [type], its [method] and the envelope
    that its [result] refers to, and, the hook not being its own envelope,
    its [data]. *)
Theorem replaceItems_envelope_frame
    (h : heap) (hk e : loc) (hm em : gmap string val) (d items : val) :
  h !! hk = Some (OPlain hm) →
  hm !! "type" = Some (VStr "after") →
  hm !! "method" = Some (VStr "find") →
  hm !! "result" = Some (VRef e) →
  h !! e = Some (OPlain em) →
  em !! "data" = Some d →
  truthy d = true →
  wf_value h items →
  ∃ h',
    replaceItems (VRef hk) items h = Ok tt h' ∧
    (∀ l k, is_Some (h !! l) →
            ¬ (l = e ∧ (k = "data" ∨ k = "total")) →
            field h' l k = field h l k) ∧
    field h' hk "type" = Some (VStr "after") ∧
    field h' hk "method" = Some (VStr "find") ∧
    field h' hk "result" = Some (VRef e) ∧
    (hk ≠ e → field h' hk "data" = field h hk "data").
Proof.
  intros Hhook Htype Hmethod Hresult Henv Hdata Hd Hwf.
  destruct (replaceItems_envelope_heap h hk e hm em d items)
    as (x & n & h0 & Hrun & Hframe & _); [done..|].
  eexists. split; [exact Hrun|].
  assert (∀ l k, is_Some (h !! l) →
            ¬ (l = e ∧ (k = "data" ∨ k = "total")) →
            field (<[e:=OPlain (<["total":=VNum n]> (<["data":=x]> em))]> h0) l k
            = field h l k) as Hall.
  { intros l k Hl Hk. rewrite field_insert_plain. case_decide as Heq.
    - subst l. erewrite (field_plain h e) by done.
      rewrite !lookup_insert_ne; [done|intros <-; tauto..].
    - by apply Hframe. }
  split; [exact Hall|].
  assert (is_Some (h !! hk)) by eauto.
  split_and!.
  - rewrite Hall, (field_plain h hk hm); [done..|]. intros [_ [?|?]]; done.
  - rewrite Hall, (field_plain h hk hm); [done..|]. intros [_ [?|?]]; done.
  - rewrite Hall, (field_plain h hk hm); [done..|]. intros [_ [?|?]]; done.
  - intros Hne. apply Hall; [done|]. intros [? _]. done.
Qed.

Lemma replaceItems_envelope_frame_witness :
  ∃ h',
    replaceItems (VRef hook) (VRef 4%positive) after_find_paginated = Ok tt h' ∧
    (∀ l k, is_Some (after_find_paginated !! l) →
            ¬ (l = 2%positive ∧ (k = "data" ∨ k = "total")) →
            field h' l k = field after_find_paginated l k) ∧
    field h' hook "type" = Some (VStr "after") ∧
    field h' hook "method" = Some (VStr "find") ∧
    field h' hook "result" = Some (VRef 2%positive) ∧
    (hook ≠ 2%positive →
     field h' hook "data" = field after_find_paginated hook "data").
Proof.
  eapply (replaceItems_envelope_frame after_find_paginated hook 2%positive
            _ _ (VRef 3%positive) (VRef 4%positive));
    try reflexivity. by eexists.
Defined.

(** C3: a before-hook whose method is [find] and whose data has a [data]
    field of its own.  On [{type: "before", method: "find",
    data: {data: [1]}}], [getItems] returns the inner array and not
    [hook.data]: the unwrapping of [find] results is applied to before-hooks
    too. *)
Theorem getItems_before_find_unwraps_data :
  field before_find_hook hook "type" = Some (VStr "before") ∧
  field before_find_hook hook "data" = Some (VRef 2%positive) ∧
  getItems (VRef hook) before_find_hook = Ok (VRef 3%positive) before_find_hook.
Proof. vm_compute. done. Qed.

(** C10: an after-hook of [find] whose result is an object with a [data]
    field that is falsy.  [getItems] returns the result object itself, and
    [replaceItems] stores the new items in [hook.result], leaving [data] and
    [total] of the old result object as they were. *)
Theorem envelope_detected_by_truthiness
    (h : heap) (hk e : loc) (hm em : gmap string val) (d items : val) :
  h !! hk = Some (OPlain hm) →
  hm !! "type" = Some (VStr "after") →
  hm !! "method" = Some (VStr "find") →
  hm !! "result" = Some (VRef e) →
  h !! e = Some (OPlain em) →
  em !! "data" = Some d →
  truthy d = false →
  getItems (VRef hk) h = Ok (VRef e) h ∧
  ∃ h',
    replaceItems (VRef hk) items h = Ok tt h' ∧
    h' = <[hk := OPlain (<["result" := items]> hm)]> h ∧
    field h' hk "result" = Some items ∧
    field h' e "data" = Some d ∧
    field h' e "total" = field h e "total".
Proof.
  intros Hhook Htype Hmethod Hresult Henv Hdata Hd. split.
  - erewrite getItems_after_find by done. rewrite Hdata. cbn. by rewrite Hd.
  - eexists. split; [by eapply replaceItems_falsy_data|].
    split; [done|]. rewrite !field_insert_plain, decide_True by done.
    rewrite lookup_insert_eq. split; [done|].
    case_decide as Heq.
    + subst hk. assert (em = hm) as -> by congruence.
      rewrite !lookup_insert_ne by done. by erewrite field_plain.
    + by erewrite !field_plain.
Qed.

Lemma envelope_detected_by_truthiness_witness :
  getItems (VRef hook) after_find_falsy_data =
    Ok (VRef 2%positive) after_find_falsy_data ∧
  ∃ h',
    replaceItems (VRef hook) (VRef 3%positive) after_find_falsy_data = Ok tt h' ∧
    h' = <[hook := OPlain (<["result" := VRef 3%positive]>
             {[ "type" := VStr "after"; "method" := VStr "find";
                "result" := VRef 2%positive ]})]> after_find_falsy_data ∧
    field h' hook "result" = Some (VRef 3%positive) ∧
    field h' 2%positive "data" = Some (VNum 0) ∧
    field h' 2%positive "total" = field after_find_falsy_data 2%positive "total".
Proof.
  eapply (envelope_detected_by_truthiness after_find_falsy_data hook 2%positive
            _ _ (VNum 0) (VRef 3%positive)); reflexivity.
Defined.

(** ** The context guard *)

Lemma indexOf_from_absent i elems x :
  (0 ≤ i)%Z → indexOf_from i elems x = (-1)%Z ↔ x ∉ elems.
Proof.
  revert i. induction elems as [|e elems IH]; intros i Hi; cbn.
  - split; [intros _; apply not_elem_of_nil|done].
  - unfold strict_eq. case_bool_decide as Heq.
    + subst. split; [lia|]. intros []. left.
    + rewrite IH by lia. rewrite not_elem_of_cons. intuition congruence.
Qed.

Lemma indexOf_absent elems x : indexOf elems x = (-1)%Z ↔ x ∉ elems.
Proof. by apply indexOf_from_absent. Qed.

Global Arguments indexOf : simpl never.

Section guard.
Variables (h : heap) (hk : loc) (ho : obj) (label : val).
Hypothesis Hhook : h !! hk = Some ho.
Hypothesis Hlabel : is_primitive label = true.

Local Abbreviation phase := (default VUndef (own_property ho "type")).
Local Abbreviation operation := (default VUndef (own_property ho "method")).

Lemma checkContext_body_wrong_phase type methods :
  is_primitive type = true →
  truthy type = true → phase ≠ type →
  checkContext_body (VRef hk) type methods label h =
    Throw (ContextMismatch label type) h.
Proof.
  intros Htype Ht Hne. unfold checkContext_body. rewrite Ht. js_run.
  unfold throw_error. cbn. by rewrite Hlabel, Htype.
Qed.

Lemma checkContext_body_phase_ok type :
  ¬ (truthy type = true ∧ phase ≠ type) →
  ∀ k : bool → M unit,
    ((if truthy type
      then (t ← get_prop (VRef hk) "type"; mret (negb (strict_eq t type)))
      else mret false) ≫= k) h = k false h.
Proof.
  intros Hok k. destruct (truthy type); js_run; [|done].
  destruct (decide (phase = type)) as [Heq|Hne]; [|tauto].
  rewrite Heq. by js_run.
Qed.

Lemma checkContext_body_no_methods type methods :
  ¬ (truthy type = true ∧ phase ≠ type) →
  truthy methods = false →
  checkContext_body (VRef hk) type methods label h = Ok tt h.
Proof.
  intros Hok Hm. unfold checkContext_body.
  rewrite checkContext_body_phase_ok by done. by rewrite Hm.
Qed.

(** The membership test and the second [throw], once [myMethods] is
    known. *)
Lemma checkContext_body_membership (h1 : heap) (elems : list val) :
  h1 !! hk = Some ho →
  forallb is_primitive elems = true →
  (wrong_method ← (if (0 <? length elems)%nat
                   then (m ← get_prop (VRef hk) "method";
                         mret (indexOf elems m =? -1)%Z)
                   else mret false);
   if (wrong_method : bool) then
     throw_error (label :: elems) (OperationMismatch label elems)
   else mret tt) h1 =
  if bool_decide (elems ≠ [] ∧ operation ∉ elems)
  then Throw (OperationMismatch label elems) h1 else Ok tt h1.
Proof.
  intros Hh1 Helems. destruct elems as [|m0 ms].
  - by rewrite bool_decide_eq_false_2 by (by intros [? _]).
  - cbn [length Nat.ltb Nat.leb]. js_run.
    destruct (decide (operation ∈ m0 :: ms)) as [Hin|Hout].
    + rewrite bool_decide_eq_false_2 by tauto.
      destruct (Z.eqb_spec (indexOf (m0 :: ms) operation) (-1)) as [Hidx|_];
        [|done].
      by apply indexOf_absent in Hidx.
    + rewrite bool_decide_eq_true_2 by done.
      destruct (Z.eqb_spec (indexOf (m0 :: ms) operation) (-1)) as [_|Hidx].
      * unfold throw_error.
        change (forallb is_primitive (label :: m0 :: ms))
          with (is_primitive label && forallb is_primitive (m0 :: ms)).
        by rewrite Hlabel, Helems.
      * exfalso. apply Hidx. by apply indexOf_absent.
Qed.

Lemma checkContext_body_methods type methods :
  forallb is_primitive (allowed_methods h methods) = true →
  ¬ (truthy type = true ∧ phase ≠ type) →
  truthy methods = true →
  ∃ h1,
    checkContext_body (VRef hk) type methods label h =
      if bool_decide (allowed_methods h methods ≠ [] ∧
                      operation ∉ allowed_methods h methods)
      then Throw (OperationMismatch label (allowed_methods h methods)) h1
      else Ok tt h1.
Proof.
  intros Hmethods Hok Hm. unfold checkContext_body.
  rewrite checkContext_body_phase_ok by done. rewrite Hm. cbn [negb].
  destruct (is_primitive methods) eqn:Hp.
  - erewrite bind_ok by (by apply isArray_primitive). js_run.
    erewrite bind_ok by (apply array_elems_array; heap_lookup).
    replace (allowed_methods h methods) with [methods] in *
      by (by destruct methods).
    eexists. apply checkContext_body_membership; [heap_lookup|done].
  - destruct methods as [| | | | |l]; try done.
    assert (∃ es, h !! l = Some (OArray es) ∧
                  allowed_methods h (VRef l) = es) as (es & Hl & Hal).
    { unfold allowed_methods in *.
      destruct (h !! l) as [[props|es]|]; try done. eauto. }
    erewrite bind_ok by (by eapply isArray_array). js_run.
    erewrite bind_ok by (by apply array_elems_array).
    rewrite Hal in *. eexists. by apply checkContext_body_membership.
Qed.
End guard.

(** Binding the parameters: only a missing [methods] touches the heap, by
    creating the empty array it defaults to. *)
Lemma checkContext_params (h : heap) hook type methods label :
  checkContext hook type methods label h =
    match methods with
    | VUndef =>
        checkContext_body hook (match type with VUndef => VNull | _ => type end)
          (VRef (fresh (dom h))) (shown_label label)
          (<[fresh (dom h) := OArray []]> h)
    | _ =>
        checkContext_body hook (match type with VUndef => VNull | _ => type end)
          methods (shown_label label) h
    end.
Proof. unfold checkContext. by destruct type, methods, label. Qed.

Lemma checkContext_outcome (h : heap) hk ho type methods label :
  h !! hk = Some ho →
  is_primitive type = true →
  is_primitive label = true →
  forallb is_primitive (allowed_methods h methods) = true →
  let r := checkContext (VRef hk) type methods label h in
  (wrong_phase ho type ∧ throws r (ContextMismatch (shown_label label) type)) ∨
  (¬ wrong_phase ho type ∧ wrong_operation h ho methods ∧
   throws r (OperationMismatch (shown_label label) (allowed_methods h methods))) ∨
  (¬ wrong_phase ho type ∧ ¬ wrong_operation h ho methods ∧ returns r).
Proof.
  intros Hhook Htype Hlabel Hmethods r. subst r. rewrite checkContext_params.
  set (type' := match type with VUndef => VNull | _ => type end).
  assert (is_primitive type' = true) as Htype' by by destruct type.
  assert (wrong_phase ho type' ↔ wrong_phase ho type) as Hwp.
  { destruct type; try tauto. unfold wrong_phase. cbn. intuition discriminate. }
  assert (truthy type = true → type' = type) as Hsame by by destruct type.
  assert (is_primitive (shown_label label) = true) as Hlabel'
    by by destruct label.
  set (h1 := <[fresh (dom h) := OArray []]> h).
  assert (h1 !! hk = Some ho) as Hhook1 by (subst h1; heap_lookup).
  destruct (decide (wrong_phase ho type)) as [Hwrong|Hok].
  - left. split; [done|]. destruct (Hwrong) as [Ht Hne].
    rewrite (Hsame Ht) in *.
    destruct methods; eexists;
      by eapply checkContext_body_wrong_phase.
  - right. assert (¬ wrong_phase ho type') as Hok' by tauto.
    destruct (decide (methods = VUndef)) as [->|Hdef].
    + right. split; [done|]. split; [by intros [? _]|].
      destruct (checkContext_body_methods h1 hk ho (shown_label label)
                  Hhook1 Hlabel' type' (VRef (fresh (dom h)))) as [h2 Hrun];
        [subst h1; unfold allowed_methods; by rewrite lookup_insert_eq|done..|].
      rewrite Hrun. rewrite bool_decide_eq_false_2; [by eexists _, _|].
      intros [Hne _]. apply Hne. subst h1. unfold allowed_methods.
      by rewrite lookup_insert_eq.
    + assert (match methods with
              | VUndef =>
                  checkContext_body (VRef hk) type' (VRef (fresh (dom h)))
                    (shown_label label) h1
              | _ => checkContext_body (VRef hk) type' methods
                       (shown_label label) h
              end = checkContext_body (VRef hk) type' methods
                      (shown_label label) h) as -> by by destruct methods.
      destruct (truthy methods) eqn:Hm.
      * destruct (checkContext_body_methods h hk ho (shown_label label)
                    Hhook Hlabel' type' methods) as [h2 Hrun]; [done..|].
        rewrite Hrun. case_bool_decide as Hop.
        -- left. split; [done|]. split; [by split|]. by eexists.
        -- right. split; [done|]. split; [|by eexists _, _].
           intros [_ ?]. tauto.
      * right. split; [done|]. split; [intros [? _]; congruence|].
        erewrite checkContext_body_no_methods by done. by eexists _, _.
Qed.

(** C4, as amended: [checkContext] fails exactly when the expected phase is
    truthy and differs from the hook's, or else when the expected operations
    are truthy, normalise to a non-empty array and do not hold the hook's
    method.  The first failure is the context error, the second the
    operation error; with falsy or empty expected operations, and the phase
    right, the call returns. *)
Theorem checkContext_fails_iff (h : heap) hk ho type methods label :
  h !! hk = Some ho →
  is_primitive type = true →
  is_primitive label = true →
  forallb is_primitive (allowed_methods h methods) = true →
  let r := checkContext (VRef hk) type methods label h in
  ((∃ e, throws r e) ↔ wrong_phase ho type ∨ wrong_operation h ho methods) ∧
  (wrong_phase ho type →
   throws r (ContextMismatch (shown_label label) type)) ∧
  (¬ wrong_phase ho type → wrong_operation h ho methods →
   throws r (OperationMismatch (shown_label label) (allowed_methods h methods))) ∧
  (¬ wrong_phase ho type →
   truthy methods = false ∨ allowed_methods h methods = [] → returns r).
Proof.
  intros Hhook Htype Hlabel Hmethods r.
  destruct (checkContext_outcome h hk ho type methods label)
    as [[Hp Hr]|[(Hp & Ho & Hr)|(Hp & Ho & Hr)]]; [done..| | |];
    fold r in Hr.
  - split_and!; [split; eauto|done|tauto|tauto].
  - split_and!; [split; eauto|tauto|done|].
    intros _ [Hm|Hnil]; destruct Ho as (Ht & Hne & _); congruence.
  - assert (∀ e, ¬ throws r e) as Hno.
    { intros e [h' He]. destruct Hr as (a & h'' & Hr). congruence. }
    split_and!; [|tauto..|done].
    split; [intros [e He]; by destruct (Hno e)|tauto].
Qed.

Lemma checkContext_fails_iff_witness :
  let r := checkContext (VRef hook) (VStr "before") (VRef 3%positive) (VStr "x")
             before_patch_hook in
  let ho := OPlain {[ "type" := VStr "before"; "method" := VStr "patch" ]} in
  ((∃ e, throws r e) ↔
   wrong_phase ho (VStr "before") ∨
   wrong_operation before_patch_hook ho (VRef 3%positive)) ∧
  (wrong_phase ho (VStr "before") →
   throws r (ContextMismatch (shown_label (VStr "x")) (VStr "before"))) ∧
  (¬ wrong_phase ho (VStr "before") →
   wrong_operation before_patch_hook ho (VRef 3%positive) →
   throws r (OperationMismatch (shown_label (VStr "x"))
               (allowed_methods before_patch_hook (VRef 3%positive)))) ∧
  (¬ wrong_phase ho (VStr "before") →
   truthy (VRef 3%positive) = false ∨
   allowed_methods before_patch_hook (VRef 3%positive) = [] → returns r).
Proof.
  apply (checkContext_fails_iff before_patch_hook hook _ (VStr "before")
           (VRef 3%positive) (VStr "x")); reflexivity.
Defined.

(** C4, as stated, fails on an expected phase or expected operations that
    are not [null] but falsy, the empty string: the phase ["before"] differs
    from [""], and the one-element set [[""]] does not hold ["patch"], yet
    neither call fails. *)
Lemma checkContext_empty_string_passes :
  VStr "" ≠ VNull ∧
  field before_patch_hook hook "type" = Some (VStr "before") ∧
  field before_patch_hook hook "method" = Some (VStr "patch") ∧
  returns (checkContext (VRef hook) (VStr "") VNull (VStr "x") before_patch_hook) ∧
  allowed_methods before_patch_hook (VStr "") = [VStr ""] ∧
  returns (checkContext (VRef hook) VNull (VStr "") (VStr "x") before_patch_hook).
Proof.
  split_and!; [done|reflexivity|reflexivity| |reflexivity|];
    by eexists _, _; vm_compute.
Qed.

(** The calls that the repository documents as examples. *)
Example checkContext_after_expected :
  checkContext (VRef hook) (VStr "after") VNull (VStr "x") before_patch_hook =
    Throw (ContextMismatch (VStr "x") (VStr "after")) before_patch_hook.
Proof. vm_compute. done. Qed.

Example checkContext_update_patch :
  checkContext (VRef hook) (VStr "before") (VRef 2%positive) (VStr "x")
    before_patch_hook = Ok tt before_patch_hook.
Proof. vm_compute. done. Qed.

Example checkContext_remove_only :
  checkContext (VRef hook) (VStr "before") (VRef 3%positive) VUndef
    before_patch_hook =
    Throw (OperationMismatch (VStr "anonymous") [VStr "remove"]) before_patch_hook.
Proof. vm_compute. done. Qed.

Example getItems_paginated :
  getItems (VRef hook) after_find_paginated =
    Ok (VRef 3%positive) after_find_paginated.
Proof. vm_compute. done. Qed.

(** * Further properties of the five functions *)

(** ** [path.split('.')] *)

Lemma string_app_cons a (s t : string) :
  String a s +:+ t = String a (s +:+ t).
Proof. reflexivity. Qed.

Lemma string_app_nil_r (s : string) : s +:+ "" = s.
Proof.
  induction s as [|a s IH]; [done|]. by rewrite string_app_cons, IH.
Qed.

Lemma string_app_assoc (s1 s2 s3 : string) :
  (s1 +:+ s2) +:+ s3 = s1 +:+ (s2 +:+ s3).
Proof.
  induction s1 as [|a s1 IH]; [done|]. by rewrite !string_app_cons, IH.
Qed.

Lemma split_from_app cur s :
  split_from cur s =
    match split_from "" s with
    | first :: rest => (cur +:+ first) :: rest
    | [] => []
    end.
Proof.
  revert cur. induction s as [|a s IH]; intros cur; cbn.
  - by rewrite string_app_nil_r.
  - destruct (Ascii.eqb a "."); cbn.
    + by rewrite string_app_nil_r.
    + change ("" +:+ String a "") with (String a "").
      rewrite (IH (String a "")), (IH (cur +:+ String a "")).
      destruct (split_from "" s) as [|first rest]; [done|].
      f_equal. by rewrite string_app_assoc.
Qed.

(** X1: the segments of a path, joined with dots, give the path back; there
    is always at least one segment, and no segment holds a dot. *)
Theorem split_dot_join (path : string) :
  String.concat "." (split_dot path) = path ∧
  split_dot path ≠ [] ∧
  Forall (λ part, has_dot part = false) (split_dot path).
Proof.
  split_and!; [| apply split_dot_nonempty |]; unfold split_dot.
  - induction path as [|a path IH]; [done|]. cbn [split_from].
    change ("" +:+ String a "") with (String a "").
    pose proof (split_from_nonempty "" path) as Hne.
    destruct (Ascii.eqb_spec a ".") as [->|Ha].
    + destruct (split_from "" path) as [|first rest]; [done|].
      cbn [String.concat] in *. by rewrite IH.
    + rewrite split_from_app.
      destruct (split_from "" path) as [|first rest]; [done|].
      cbn [String.concat] in *. rewrite <-IH.
      destruct rest; by rewrite ?string_app_cons.
  - induction path as [|a path IH]; [by repeat constructor|].
    cbn [split_from]. change ("" +:+ String a "") with (String a "").
    destruct (Ascii.eqb a ".") eqn:Ha.
    + by constructor.
    + rewrite split_from_app.
      destruct (split_from "" path) as [|first rest]; [done|].
      inversion_clear IH. constructor; [|done].
      rewrite string_app_cons. cbn [has_dot]. by rewrite Ha.
Qed.


(** ** [setByDot] and [getByDot] on any object graph *)












Lemma reduce_from_ext {A} (f g : A → string → nat → M A) parts :
  (∀ acc part i h, f acc part i h = g acc part i h) →
  ∀ i acc h, reduce_from f i parts acc h = reduce_from g i parts acc h.
Proof.
  intros Hfg. induction parts as [|part parts IH]; intros i acc h; [done|].
  cbn [reduce_from]. unfold mbind, M_bind. rewrite Hfg.
  destruct (g acc part i h); [apply IH|done..].
Qed.

(** X6: the deletion flag matters only for [undefined]: with any other
    value, [setByDot] does the same with and without it, whatever the root,
    the path and the heap. *)
Theorem setByDot_ifDelete_only_for_undefined
    (h : heap) (obj : val) (path : string) (value : val) :
  value ≠ VUndef →
  setByDot obj path value true h = setByDot obj path value false h.
Proof.
  intros Hv. unfold setByDot, reduce. apply reduce_from_ext.
  intros acc part i h0. unfold setByDot_step.
  by rewrite strict_eq_ne.
Qed.

Lemma setByDot_ifDelete_only_for_undefined_witness :
  setByDot (VRef root) "a.b" VNull true nested_a_b =
    setByDot (VRef root) "a.b" VNull false nested_a_b.
Proof.
  apply (setByDot_ifDelete_only_for_undefined nested_a_b (VRef root) "a.b" VNull).
  discriminate.
Defined.




(** X8: a [null] under the first segment of a longer path stops both
    accessors: [getByDot] and [setByDot] throw a [TypeError], and [setByDot]
    has not changed the heap when it does. *)
Theorem null_under_first_segment_throws
    (h : heap) (l : loc) props (path first second : string) rest
    (value : val) (ifDelete : bool) :
  h !! l = Some (OPlain props) →
  split_dot path = first :: second :: rest →
  props !! first = Some VNull →
  getByDot (VRef l) path h = Throw TypeError h ∧
  setByDot (VRef l) path value ifDelete h = Throw TypeError h.
Proof.
  intros Hl Hpath Hnull. unfold getByDot, setByDot, reduce. rewrite Hpath.
  cbn [reduce_from length]. split.
  - erewrite bind_ok; last first.
    { unfold getByDot_step. cbn. erewrite get_prop_plain by done.
      by rewrite Hnull. }
    by erewrite bind_throw.
  - erewrite bind_ok by (by eapply setByDot_step_null).
    erewrite bind_throw; [done|]. apply setByDot_step_on_null.
Qed.

Lemma null_under_first_segment_throws_witness :
  getByDot (VRef root) "a.b.c" null_under_a = Throw TypeError null_under_a ∧
  setByDot (VRef root) "a.b.c" (VNum 1) true null_under_a =
    Throw TypeError null_under_a.
Proof.
  apply (null_under_first_segment_throws null_under_a root {[ "a" := VNull ]}
           "a.b.c" "a" "b" ["c"]); reflexivity.
Defined.

(** ** [getByDot] reads and nothing more *)

Lemma heap_Forall_own_property (P : val → Prop) (h : heap) l o k x :
  heap_Forall P h →
  (∀ n, P (VNum n)) →
  h !! l = Some o →
  own_property o k = Some x →
  P x.
Proof.
  intros Hall Hnum Hl Hk. specialize (Hall l o Hl). cbn in Hall.
  destruct o as [props|elems]; cbn in Hk.
  - by eapply Hall.
  - destruct (String.eqb k "length"); [by simplify_eq|].
    destruct (array_index k) as [n|]; [|done].
    eapply Forall_lookup_1; eauto.
Qed.

Lemma getByDot_reduce_inv (P : val → Prop) (h : heap) :
  (∀ v, P v → wf_value h v) →
  P VUndef →
  (∀ n, P (VNum n)) →
  heap_Forall P h →
  ∀ parts i v,
    P v →
    (∃ x, reduce_from getByDot_step i parts v h = Ok x h ∧ P x) ∨
    (reduce_from getByDot_step i parts v h = Throw TypeError h ∧ P VNull).
Proof.
  intros Hwf Hundef Hnum Hall.
  induction parts as [|part parts IH]; intros i v Hv; [left; by eexists|].
  cbn [reduce_from].
  assert ((∃ x, getByDot_step v part i h = Ok x h ∧ P x) ∨
          (getByDot_step v part i h = Throw TypeError h ∧ P VNull))
    as [(x & Hstep & Hx)|[Hstep Hnull]].
  { unfold getByDot_step. destruct v as [| | | | |l]; cbn; eauto.
    destruct (Hwf _ Hv) as [o Hl]. left.
    erewrite get_prop_obj by done. eexists. split; [done|].
    destruct (own_property o part) as [x|] eqn:Hk; [|done].
    by eapply heap_Forall_own_property. }
  - erewrite bind_ok by done. by apply IH.
  - right. by erewrite bind_throw.
Qed.

(** X9: on a heap without dangling references, [getByDot] either returns a
    value or throws a [TypeError], and in both cases leaves the heap as it
    was. *)
Theorem getByDot_reads_only (h : heap) (obj : val) (path : string) :
  closed h →
  wf_value h obj →
  (∃ v, getByDot obj path h = Ok v h) ∨
  getByDot obj path h = Throw TypeError h.
Proof.
  intros Hclosed Hobj.
  destruct (getByDot_reduce_inv (wf_value h) h) with
    (parts := split_dot path) (i := 0) (v := obj)
    as [(x & Hrun & _)|[Hrun _]]; try done; eauto.
Qed.

Lemma getByDot_reads_only_witness :
  (∃ v, getByDot (VRef root) "a.b.c" nested_a_b = Ok v nested_a_b) ∨
  getByDot (VRef root) "a.b.c" nested_a_b = Throw TypeError nested_a_b.
Proof.
  apply (getByDot_reads_only nested_a_b (VRef root) "a.b.c").
  - by apply (bool_decide_unpack _); vm_compute.
  - by eexists.
Defined.



(** ** [checkContext] validates and nothing more *)

Section keeps_objects.
Context {A B : Type}.

Lemma keeps_objects_ret (a : A) : keeps_objects (mret a).
Proof. by intros h. Qed.

Lemma keeps_objects_throw (e : exn) : keeps_objects (throw e : M A).
Proof. by intros h. Qed.

Lemma keeps_objects_bind (m : M A) (k : A → M B) :
  keeps_objects m → (∀ a, keeps_objects (k a)) → keeps_objects (m ≫= k).
Proof.
  intros Hm Hk h. specialize (Hm h). unfold mbind, M_bind.
  destruct (m h) as [a h1|e h1|]; [|done..].
  specialize (Hk a h1). destruct (k a h1) as [b h2|e h2|]; [| |done].
  - intros l Hl. rewrite Hk, Hm; [done..|]. by rewrite Hm.
  - intros l Hl. rewrite Hk, Hm; [done..|]. by rewrite Hm.
Qed.
End keeps_objects.

Lemma keeps_objects_get_prop v k : keeps_objects (get_prop v k).
Proof.
  intros h. unfold get_prop. destruct v as [| | | | |l]; try done.
  by destruct (h !! l).
Qed.

Lemma keeps_objects_isArray v : keeps_objects (isArray v).
Proof.
  intros h. unfold isArray. destruct v as [| | | | |l]; try done.
  by destruct (h !! l) as [[]|].
Qed.

Lemma keeps_objects_array_elems v : keeps_objects (array_elems v).
Proof.
  intros h. unfold array_elems. destruct v as [| | | | |l]; try done.
  by destruct (h !! l) as [[]|].
Qed.

Lemma keeps_objects_alloc o : keeps_objects (alloc o).
Proof.
  intros h l [o' Hl]. unfold alloc. rewrite lookup_insert_ne; [done|].
  by eapply fresh_ne.
Qed.

Lemma keeps_objects_throw_error {A} parts e :
  keeps_objects (throw_error parts e : M A).
Proof. intros h. unfold throw_error. by destruct (forallb _ _). Qed.

Lemma keeps_objects_checkContext hook type methods label :
  keeps_objects (checkContext hook type methods label).
Proof.
  unfold checkContext, checkContext_body, default_param.
  repeat first
    [ apply keeps_objects_bind; [|intros ?]
    | apply keeps_objects_ret
    | apply keeps_objects_get_prop
    | apply keeps_objects_isArray
    | apply keeps_objects_array_elems
    | apply keeps_objects_alloc
    | apply keeps_objects_throw_error
    | match goal with
      | |- keeps_objects (if ?c then _ else _) => destruct c
      | |- keeps_objects (match ?v with _ => _ end) => destruct v
      end ].
Qed.

(** X11: [checkContext] is a pure validation: whether it returns or fails,
    every object that was in the heap, the hook included, is as it was. *)
Theorem checkContext_changes_no_object (h : heap) hk ho type methods label :
  h !! hk = Some ho →
  is_primitive type = true →
  is_primitive label = true →
  forallb is_primitive (allowed_methods h methods) = true →
  ∃ h',
    (checkContext (VRef hk) type methods label h = Ok tt h' ∨
     ∃ e, checkContext (VRef hk) type methods label h = Throw e h') ∧
    ∀ l, is_Some (h !! l) → h' !! l = h !! l.
Proof.
  intros Hhook Htype Hlabel Hmethods.
  pose proof (keeps_objects_checkContext (VRef hk) type methods label h) as Hkeep.
  destruct (checkContext_outcome h hk ho type methods label)
    as [[_ [h' Hr]]|[(_ & _ & [h' Hr])|(_ & _ & [[] [h' Hr]])]]; [done..| | |];
    rewrite Hr in Hkeep; eauto 6.
Qed.

Lemma checkContext_changes_no_object_witness :
  ∃ h',
    (checkContext (VRef hook) (VStr "before") (VStr "create") (VStr "x")
       before_patch_hook = Ok tt h' ∨
     ∃ e, checkContext (VRef hook) (VStr "before") (VStr "create") (VStr "x")
            before_patch_hook = Throw e h') ∧
    ∀ l, is_Some (before_patch_hook !! l) → h' !! l = before_patch_hook !! l.
Proof.
  eapply (checkContext_changes_no_object before_patch_hook hook _
            (VStr "before") (VStr "create") (VStr "x")); reflexivity.
Defined.

(** X12: with nothing to check, nothing is looked at: when the expected
    type and the expected methods are both falsy, [checkContext] returns for
    every hook value, [null] and [undefined] included. *)
Theorem checkContext_unrestricted_returns (h : heap) hook type methods label :
  truthy type = false →
  truthy methods = false →
  returns (checkContext hook type methods label h).
Proof.
  intros Htype Hmethods. rewrite checkContext_params.
  assert (truthy (match type with VUndef => VNull | _ => type end) = false)
    as Htype' by by destruct type.
  destruct (decide (methods = VUndef)) as [->|Hdef].
  - unfold checkContext_body, returns. rewrite Htype'. js_run.
    erewrite bind_ok by (by eapply isArray_array; heap_lookup). js_run.
    erewrite bind_ok by (eapply array_elems_array; heap_lookup).
    cbn. by eexists _, _.
  - assert (∀ X (a b : X), match methods with VUndef => a | _ => b end = b)
      as -> by by destruct methods.
    unfold checkContext_body. rewrite Htype'.
    erewrite bind_ok by reflexivity. rewrite Hmethods. by eexists _, _.
Qed.

Lemma checkContext_unrestricted_returns_witness :
  returns (checkContext VNull VNull VUndef VUndef empty_root).
Proof.
  apply (checkContext_unrestricted_returns empty_root VNull VNull VUndef VUndef);
    reflexivity.
Defined.

Lemma throws_unique {A} (r : result A) e1 e2 :
  throws r e1 → throws r e2 → e1 = e2.
Proof. intros [h1 ->] [h2 [= -> _]]. done. Qed.

Lemma throws_not_returns {A} (r : result A) e : throws r e → ¬ returns r.
Proof. intros [h1 ->] (a & h2 & [=]). Qed.

(** X13: a single method name stands for the one-element array holding it:
    [checkContext(hook, type, m, label)] and
    [checkContext(hook, type, [m], label)] end the same way, returning or
    failing with the same error. *)
Theorem checkContext_single_method_as_array
    (h : heap) hk ho a type m label :
  h !! hk = Some ho →
  h !! a = Some (OArray [m]) →
  is_primitive type = true →
  is_primitive label = true →
  is_primitive m = true →
  truthy m = true →
  let r1 := checkContext (VRef hk) type m label h in
  let r2 := checkContext (VRef hk) type (VRef a) label h in
  (returns r1 ↔ returns r2) ∧ (∀ e, throws r1 e ↔ throws r2 e).
Proof.
  intros Hhook Ha Htype Hlabel Hm Htruthy r1 r2.
  assert (allowed_methods h m = [m]) as Hal1 by by destruct m.
  assert (allowed_methods h (VRef a) = [m]) as Hal2
    by (unfold allowed_methods; by rewrite Ha).
  assert (wrong_operation h ho m ↔ wrong_operation h ho (VRef a)) as Hop.
  { unfold wrong_operation. rewrite Hal1, Hal2, Htruthy. done. }
  destruct (checkContext_outcome h hk ho type m label)
    as [[Hp1 Hr1]|[(Hp1 & Ho1 & Hr1)|(Hp1 & Ho1 & Hr1)]];
    [done..|by rewrite Hal1; cbn; rewrite Hm| | |];
  destruct (checkContext_outcome h hk ho type (VRef a) label)
    as [[Hp2 Hr2]|[(Hp2 & Ho2 & Hr2)|(Hp2 & Ho2 & Hr2)]];
    try done; try (by rewrite Hal2; cbn; rewrite Hm); try tauto;
    fold r1 in Hr1; fold r2 in Hr2; rewrite ?Hal1, ?Hal2 in *.
  - split.
    + split; intros Hret; [by destruct (throws_not_returns _ _ Hr1)
                          |by destruct (throws_not_returns _ _ Hr2)].
    + intros e. split; intros He.
      * by rewrite (throws_unique _ _ _ He Hr1).
      * by rewrite (throws_unique _ _ _ He Hr2).
  - split.
    + split; intros Hret; [by destruct (throws_not_returns _ _ Hr1)
                          |by destruct (throws_not_returns _ _ Hr2)].
    + intros e. split; intros He.
      * by rewrite (throws_unique _ _ _ He Hr1).
      * by rewrite (throws_unique _ _ _ He Hr2).
  - split; [done|]. intros e. split; intros He.
    + by destruct (throws_not_returns _ _ He).
    + by destruct (throws_not_returns _ _ He).
Qed.

Lemma checkContext_single_method_as_array_witness :
  let r1 := checkContext (VRef hook) (VStr "before") (VStr "remove") (VStr "x")
              before_patch_hook in
  let r2 := checkContext (VRef hook) (VStr "before") (VRef 3%positive) (VStr "x")
              before_patch_hook in
  (returns r1 ↔ returns r2) ∧ (∀ e, throws r1 e ↔ throws r2 e).
Proof.
  eapply (checkContext_single_method_as_array before_patch_hook hook _
            3%positive (VStr "before") (VStr "remove") (VStr "x"));
    reflexivity.
Defined.

(** ** [getItems] and [replaceItems] across the shapes of a hook *)

Lemma own_property_array_data elems : own_property (OArray elems) "data" = None.
Proof. reflexivity. Qed.

Lemma get_prop_primitive (h : heap) v k :
  is_primitive v = true → v ≠ VUndef → v ≠ VNull →
  get_prop v k h = Ok VUndef h.
Proof. by destruct v. Qed.

(** Symbolic execution that also reads [data] off arrays and primitives. *)
Ltac js_run_data :=
  repeat first
    [ rewrite own_property_array_data
    | erewrite (bind_ok (get_prop _ "data")) by (by apply get_prop_primitive)
    | js_step
    | rewrite strict_eq_refl
    | rewrite strict_eq_ne by done
    | match goal with
      | H : ?m !! ?k = _ |- context [?m !! ?k] => rewrite H
      end
    | progress cbn ].

(** What [getItems] makes of an array, whatever the method. *)
Lemma getItems_unwrap_array (h : heap) hk hm key a es :
  h !! hk = Some (OPlain hm) →
  (hm !! "type" = Some (VStr "before") ∧ key = "data" ∨
   hm !! "type" = Some (VStr "after") ∧ key = "result") →
  hm !! key = Some (VRef a) →
  h !! a = Some (OArray es) →
  getItems (VRef hk) h = Ok (VRef a) h.
Proof.
  intros Hhook [[Htype ->]|[Htype ->]] Hkey Ha; unfold getItems; js_run.
  - destruct (strict_eq _ (VStr "find")); [|by js_run].
    erewrite bind_ok by (by eapply get_prop_obj).
    by rewrite own_property_array_data.
  - destruct (strict_eq _ (VStr "find")); [|by js_run].
    erewrite bind_ok by (by eapply get_prop_obj).
    by rewrite own_property_array_data.
Qed.

(** What [getItems] returns when the method is not [find]. *)
Lemma getItems_not_find (h : heap) hk hm key :
  h !! hk = Some (OPlain hm) →
  (hm !! "type" = Some (VStr "before") ∧ key = "data" ∨
   hm !! "type" = Some (VStr "after") ∧ key = "result") →
  default VUndef (hm !! "method") ≠ VStr "find" →
  getItems (VRef hk) h = Ok (default VUndef (hm !! key)) h.
Proof.
  intros Hhook [[Htype ->]|[Htype ->]] Hmethod; unfold getItems; js_run.
  - destruct (truthy _); js_run; reflexivity.
  - destruct (truthy _); js_run; reflexivity.
Qed.

(** X14: on an after-hook of [find] whose result is an object with a truthy
    [data] field, [getItems] returns that field, the very value stored
    there, and leaves the heap as it was. *)
Theorem getItems_paginated_returns_data
    (h : heap) (hk e : loc) (hm em : gmap string val) (d : val) :
  h !! hk = Some (OPlain hm) →
  hm !! "type" = Some (VStr "after") →
  hm !! "method" = Some (VStr "find") →
  hm !! "result" = Some (VRef e) →
  h !! e = Some (OPlain em) →
  em !! "data" = Some d →
  truthy d = true →
  getItems (VRef hk) h = Ok d h.
Proof.
  intros Hhook Htype Hmethod Hresult Henv Hdata Hd.
  erewrite getItems_after_find by done. rewrite Hdata. cbn. by rewrite Hd.
Qed.

Lemma getItems_paginated_returns_data_witness :
  getItems (VRef hook) after_find_paginated =
    Ok (VRef 3%positive) after_find_paginated.
Proof.
  eapply (getItems_paginated_returns_data after_find_paginated hook 2%positive);
    reflexivity.
Defined.

(** X15: a [find] that is not paginated: when the result (or, on a
    before-hook, the data) is an array, [getItems] returns that array. *)
Theorem getItems_array_returned_as_is (h : heap) hk hm key a es :
  h !! hk = Some (OPlain hm) →
  (hm !! "type" = Some (VStr "before") ∧ key = "data" ∨
   hm !! "type" = Some (VStr "after") ∧ key = "result") →
  hm !! key = Some (VRef a) →
  h !! a = Some (OArray es) →
  getItems (VRef hk) h = Ok (VRef a) h.
Proof.
  intros Hhook Hphase Hkey Ha. by eapply getItems_unwrap_array.
Qed.

(** X16: for every method but [find], [getItems] returns [hook.data] on a
    before-hook and [hook.result] on an after-hook as they are, also when
    they have a [data] field of their own. *)
Theorem getItems_other_methods_no_unwrapping (h : heap) hk hm key :
  h !! hk = Some (OPlain hm) →
  (hm !! "type" = Some (VStr "before") ∧ key = "data" ∨
   hm !! "type" = Some (VStr "after") ∧ key = "result") →
  default VUndef (hm !! "method") ≠ VStr "find" →
  getItems (VRef hk) h = Ok (default VUndef (hm !! key)) h.
Proof.
  intros Hhook Hphase Hmethod. by eapply getItems_not_find.
Qed.

Lemma getItems_array_returned_as_is_witness :
  getItems (VRef hook) after_find_array = Ok (VRef 2%positive) after_find_array.
Proof.
  eapply (getItems_array_returned_as_is after_find_array hook _ "result"
            2%positive); [reflexivity|right; split; reflexivity|reflexivity..].
Defined.

Lemma getItems_other_methods_no_unwrapping_witness :
  getItems (VRef hook) after_get_hook =
    Ok (default VUndef
          (({[ "type" := VStr "after"; "method" := VStr "get";
               "result" := VRef 2%positive ]} : gmap string val) !! "result"))
       after_get_hook.
Proof.
  eapply (getItems_other_methods_no_unwrapping after_get_hook hook _ "result");
    [reflexivity|right; split; reflexivity|discriminate].
Defined.

(** The two plain stores of [replaceItems]. *)
Lemma replaceItems_before (h : heap) hk hm items :
  h !! hk = Some (OPlain hm) →
  hm !! "type" = Some (VStr "before") →
  replaceItems (VRef hk) items h =
    Ok tt (<[hk := OPlain (<["data" := items]> hm)]> h).
Proof. intros Hhook Htype. unfold replaceItems. by js_run. Qed.

Lemma replaceItems_after_not_find (h : heap) hk hm items :
  h !! hk = Some (OPlain hm) →
  hm !! "type" = Some (VStr "after") →
  default VUndef (hm !! "method") ≠ VStr "find" →
  replaceItems (VRef hk) items h =
    Ok tt (<[hk := OPlain (<["result" := items]> hm)]> h).
Proof. intros Hhook Htype Hmethod. unfold replaceItems. by js_run. Qed.

(** An after-hook of [find]: either its result is an envelope, an object
    with a truthy [data], or [replaceItems] stores into [hook.result]. *)
Lemma replaceItems_after_find_cases (h : heap) hk hm :
  h !! hk = Some (OPlain hm) →
  hm !! "type" = Some (VStr "after") →
  hm !! "method" = Some (VStr "find") →
  wf_value h (default VUndef (hm !! "result")) →
  (∃ e em d, hm !! "result" = Some (VRef e) ∧ h !! e = Some (OPlain em) ∧
             em !! "data" = Some d ∧ truthy d = true) ∨
  (∀ items, replaceItems (VRef hk) items h =
              Ok tt (<[hk := OPlain (<["result" := items]> hm)]> h)).
Proof.
  intros Hhook Htype Hmethod Hwf.
  destruct (hm !! "result") as [r|] eqn:Hresult; cbn in Hwf.
  - destruct r as [| |b|n|s|e].
    1-5: right; intros items; unfold replaceItems; js_run_data;
         try destruct b; try destruct (negb _); by js_run_data.
    destruct Hwf as [[em|es] Henv].
    + destruct (em !! "data") as [d|] eqn:Hdata.
      * destruct (truthy d) eqn:Hd; [left; eauto 10|].
        right. intros items. by eapply replaceItems_falsy_data.
      * right. intros items. unfold replaceItems. by js_run_data.
    + right. intros items. unfold replaceItems. by js_run_data.
  - right. intros items. unfold replaceItems. by js_run_data.
Qed.

(** Reading the items back once the envelope holds a truthy [data]. *)
Lemma getItems_after_envelope_store (h0 : heap) hk hm e em x n :
  h0 !! hk = Some (OPlain hm) →
  hm !! "type" = Some (VStr "after") →
  hm !! "method" = Some (VStr "find") →
  hm !! "result" = Some (VRef e) →
  (hk = e → hm = em) →
  truthy x = true →
  getItems (VRef hk)
    (<[e := OPlain (<["total" := n]> (<["data" := x]> em))]> h0) =
  Ok x (<[e := OPlain (<["total" := n]> (<["data" := x]> em))]> h0).
Proof.
  intros Hhook Htype Hmethod Hresult Halias Hx.
  set (em' := <["total" := n]> (<["data" := x]> em)).
  assert (∃ hm', <[e := OPlain em']> h0 !! hk = Some (OPlain hm') ∧
                 hm' !! "type" = Some (VStr "after") ∧
                 hm' !! "method" = Some (VStr "find") ∧
                 hm' !! "result" = Some (VRef e)) as (hm' & Hhook' & ? & ? & ?).
  { destruct (decide (hk = e)) as [Heq|Hne].
    - pose proof (Halias Heq) as <-. subst e. rewrite lookup_insert_eq.
      eexists. split; [done|]. subst em'. by rewrite !lookup_insert_ne.
    - rewrite lookup_insert_ne by done. eauto. }
  erewrite (getItems_after_find _ hk hm' Hhook' e em');
    [|done..|by rewrite lookup_insert_eq].
  subst em'. rewrite lookup_insert_ne, lookup_insert_eq by done. cbn.
  by rewrite Hx.
Qed.

(** X17: an array given to [replaceItems] is what [getItems] then returns,
    for every hook: before or after, any method, with or without a
    paginated result. *)
Theorem replaceItems_then_getItems_array (h : heap) hk hm a es :
  h !! hk = Some (OPlain hm) →
  hm !! "type" = Some (VStr "before") ∨ hm !! "type" = Some (VStr "after") →
  wf_value h (default VUndef (hm !! "result")) →
  h !! a = Some (OArray es) →
  ∃ h', replaceItems (VRef hk) (VRef a) h = Ok tt h' ∧
        getItems (VRef hk) h' = Ok (VRef a) h'.
Proof.
  intros Hhook [Htype|Htype] Hwf Ha.
  - eexists. split; [by eapply replaceItems_before|].
    eapply (getItems_unwrap_array _ hk _ "data"); [heap_lookup|left|..].
    + by rewrite lookup_insert_ne.
    + by rewrite lookup_insert_eq.
    + rewrite lookup_insert_ne; [done|congruence].
  - assert (∀ h0, h0 = <[hk := OPlain (<["result" := VRef a]> hm)]> h →
              getItems (VRef hk) h0 = Ok (VRef a) h0) as Hplain.
    { intros h0 ->.
      eapply (getItems_unwrap_array _ hk _ "result"); [heap_lookup|right|..].
      + by rewrite lookup_insert_ne.
      + by rewrite lookup_insert_eq.
      + rewrite lookup_insert_ne; [done|congruence]. }
    destruct (decide (default VUndef (hm !! "method") = VStr "find"))
      as [Hfind|Hother].
    + assert (hm !! "method" = Some (VStr "find")) as Hmethod
        by (by destruct (hm !! "method"); simplify_eq/=).
      destruct (replaceItems_after_find_cases h hk hm)
        as [(e & em & d & Hresult & Henv & Hdata & Hd)|Hrun]; [done..| |].
      * eexists. split; [by eapply replaceItems_envelope_array|].
        eapply getItems_after_envelope_store; [done..|congruence|done].
      * eexists. split; [apply Hrun|]. by apply Hplain.
    + eexists. split; [by eapply replaceItems_after_not_find|].
      by apply Hplain.
Qed.

Lemma replaceItems_then_getItems_array_witness :
  ∃ h', replaceItems (VRef hook) (VRef 4%positive) after_find_paginated = Ok tt h' ∧
        getItems (VRef hook) h' = Ok (VRef 4%positive) h'.
Proof.
  eapply (replaceItems_then_getItems_array after_find_paginated hook _ 4%positive);
    [reflexivity|right; reflexivity|by eexists|reflexivity].
Defined.

(** X18: for every method but [find], whatever is given to [replaceItems]
    is what [getItems] then returns. *)
Theorem replaceItems_then_getItems_other_methods (h : heap) hk hm items :
  h !! hk = Some (OPlain hm) →
  hm !! "type" = Some (VStr "before") ∨ hm !! "type" = Some (VStr "after") →
  default VUndef (hm !! "method") ≠ VStr "find" →
  ∃ h', replaceItems (VRef hk) items h = Ok tt h' ∧
        getItems (VRef hk) h' = Ok items h'.
Proof.
  intros Hhook [Htype|Htype] Hmethod.
  - eexists. split; [by eapply replaceItems_before|].
    erewrite (getItems_not_find _ hk _ "data"); [|heap_lookup|left|].
    + by rewrite lookup_insert_eq.
    + by rewrite lookup_insert_ne.
    + by rewrite lookup_insert_ne.
  - eexists. split; [by eapply replaceItems_after_not_find|].
    erewrite (getItems_not_find _ hk _ "result"); [|heap_lookup|right|].
    + by rewrite lookup_insert_eq.
    + by rewrite lookup_insert_ne.
    + by rewrite lookup_insert_ne.
Qed.

Lemma replaceItems_then_getItems_other_methods_witness :
  ∃ h', replaceItems (VRef hook) (VRef 2%positive) after_get_hook = Ok tt h' ∧
        getItems (VRef hook) h' = Ok (VRef 2%positive) h'.
Proof.
  eapply (replaceItems_then_getItems_other_methods after_get_hook hook);
    [reflexivity|right; reflexivity|discriminate].
Defined.

(** X19: a single item given to [replaceItems] on a paginated result comes
    back from [getItems] wrapped: a new array whose only element is the
    item. *)
Theorem replaceItems_single_item_comes_back_wrapped
    (h : heap) (hk e : loc) (hm em : gmap string val) (d items : val) :
  h !! hk = Some (OPlain hm) →
  hm !! "type" = Some (VStr "after") →
  hm !! "method" = Some (VStr "find") →
  hm !! "result" = Some (VRef e) →
  h !! e = Some (OPlain em) →
  em !! "data" = Some d →
  truthy d = true →
  isArray items h = Ok false h →
  ∃ h' a,
    replaceItems (VRef hk) items h = Ok tt h' ∧
    getItems (VRef hk) h' = Ok (VRef a) h' ∧
    h !! a = None ∧
    h' !! a = Some (OArray [items]).
Proof.
  intros Hhook Htype Hmethod Hresult Henv Hdata Hd Hitems.
  eexists _, (fresh (dom h)).
  split; [by eapply replaceItems_envelope_single|].
  split_and!.
  - eapply getItems_after_envelope_store; [heap_lookup|done..|congruence|done].
  - apply fresh_unused.
  - rewrite lookup_insert_ne, lookup_insert_eq; [done|].
    by eapply not_eq_sym, fresh_ne.
Qed.

Lemma replaceItems_single_item_comes_back_wrapped_witness :
  ∃ h' a,
    replaceItems (VRef hook) (VNum 5) after_find_paginated = Ok tt h' ∧
    getItems (VRef hook) h' = Ok (VRef a) h' ∧
    after_find_paginated !! a = None ∧
    h' !! a = Some (OArray [VNum 5]).
Proof.
  eapply (replaceItems_single_item_comes_back_wrapped after_find_paginated
            hook 2%positive _ _ (VRef 3%positive) (VNum 5)); reflexivity.
Defined.
